(** * Conditional-coverage validation (clover/valid_pred_sets.py)

    A shallow embedding of the class [Valid_pred_sets], of the
    module-level worker functions [_retrain_loop_par], [retrain_par] and
    [bootstrap_par] and of the two quantile-regression adapters,
    followed by the properties of the validity-testing engine.

    Conventions of the embedding.
    - A numpy float is a rational ([Q]); the two places that leave the
      rationals (the square root and the normal quantile of the bootstrap
      interval) are real numbers ([R]).  A scalar statistic is an
      [option]: [None] is numpy's [nan] (the mean of an empty array) for
      rational statistics, and any non-finite float for real ones.
      Arithmetic on these numbers is exact: the rounding of binary64 is
      not modelled, except in [Binary64], which computes the bounds of
      the bootstrap interval on binary64 values.
    - The interval predictor [conf] is a function of its arguments: it
      neither reads nor advances numpy's global generator.
    - A Python call that may raise returns a [result]; code that reads or
      advances numpy's global generator lives in the state monad [py].
    - The estimators (scikit-learn, pygam, user objects), the splitters,
      the generator and scipy's quantile function are not code of this
      repository: they are the fields of the interface [Libraries]. *)

From Stdlib Require Import String List Sorted ZArith QArith Qabs Qminmax Qround Qpower Qreals Reals Lra Lia Bool.
From Stdlib Require Lqa.
From Stdlib Require PrimFloat.
Import ListNotations.

(** ** Exceptions and results *)

Inductive exn : Type :=
| AttributeError (name : string)
| UnboundLocalError (name : string)
| IndexError
| ValueError
| TypeError
| ZeroDivisionError
| LibraryError (cls : string).

Definition exn_name (e : exn) : string :=
  match e with
  | AttributeError _ => "AttributeError"
  | UnboundLocalError _ => "UnboundLocalError"
  | IndexError => "IndexError"
  | ValueError => "ValueError"
  | TypeError => "TypeError"
  | ZeroDivisionError => "ZeroDivisionError"
  | LibraryError cls => cls
  end%string.

Inductive result (A : Type) : Type :=
| Ok (a : A)
| Raise (e : exn).

Arguments Ok {A} a.
Arguments Raise {A} e.

Definition is_ok {A} (r : result A) : bool :=
  match r with Ok _ => true | Raise _ => false end.

Definition rbind {A B} (r : result A) (k : A -> result B) : result B :=
  match r with
  | Ok a => k a
  | Raise e => Raise e
  end.

(** Stateful computations over a state [S] that may raise.  The state
    reached when the exception was raised is kept. *)
Definition py (S A : Type) : Type := S -> result A * S.

Definition ret {S A} (a : A) : py S A := fun s => (Ok a, s).

Definition bind {S A B} (c : py S A) (k : A -> py S B) : py S B :=
  fun s => match c s with
           | (Ok a, s') => k a s'
           | (Raise e, s') => (Raise e, s')
           end.

Definition raise {S A} (e : exn) : py S A := fun s => (Raise e, s).

Definition lift {S A} (r : result A) : py S A := fun s => (r, s).

Declare Scope py_scope.
Delimit Scope py_scope with py.
Notation "x <- c ;; k" := (bind c (fun x => k))
  (at level 61, c at next level, right associativity) : py_scope.
Notation "c ;;; k" := (bind c (fun _ => k))
  (at level 61, right associativity) : py_scope.
Notation "x <-! r ;; k" := (rbind r (fun x => k))
  (at level 61, r at next level, right associativity) : py_scope.
Local Open Scope py_scope.

(** [for x in xs: ...] collecting one value per iteration. *)
Fixpoint for_each {S A B} (xs : list A) (body : A -> py S B) : py S (list B) :=
  match xs with
  | [] => ret []
  | x :: xs' =>
      b <- body x ;;
      bs <- for_each xs' body ;;
      ret (b :: bs)
  end.

(** [for i in range(n): ...]. *)
Definition for_range {S B} (n : nat) (body : nat -> py S B) : py S (list B) :=
  for_each (seq 0 n) body.

Fixpoint rmap {A B} (f : A -> result B) (xs : list A) : result (list B) :=
  match xs with
  | [] => Ok []
  | x :: xs' =>
      b <-! f x ;;
      bs <-! rmap f xs' ;;
      Ok (b :: bs)
  end.

(** Reading an attribute of [self] that is only created by [fit]. *)
Definition attr {A} (name : string) (v : option A) : result A :=
  match v with
  | Some a => Ok a
  | None => Raise (AttributeError name)
  end.

(** ** numpy arrays and scalar statistics *)

Definition vector := list Q.
Definition matrix := list (list Q).

Inductive ndarray : Type :=
| Arr1 (v : vector)
| Arr2 (m : matrix).

(** All entries, in C order. *)
Definition entries (a : ndarray) : list Q :=
  match a with
  | Arr1 v => v
  | Arr2 m => concat m
  end.

(** [a.flatten(order="C")]. *)
Definition flatten (a : ndarray) : ndarray := Arr1 (entries a).

(** [len(pred[0])]. *)
Definition len_first (pred : ndarray) : result nat :=
  match pred with
  | Arr2 (row :: _) => Ok (length row)
  | Arr1 (_ :: _) => Raise TypeError
  | _ => Raise IndexError
  end.

(** [pred[:, j]]. *)
Definition column (j : nat) (pred : ndarray) : result ndarray :=
  match pred with
  | Arr2 m =>
      v <-! rmap (fun row => match nth_error row j with
                             | Some x => Ok x
                             | None => Raise IndexError
                             end) m ;;
      Ok (Arr1 v)
  | Arr1 _ => Raise IndexError
  end.

(** [preds[i, j]]. *)
Definition index2 (preds : matrix) (i j : nat) : result Q :=
  match nth_error preds i with
  | Some row => match nth_error row j with
                | Some x => Ok x
                | None => Raise IndexError
                end
  | None => Raise IndexError
  end.

(** [a[i]] along the first axis; a negative index counts from the end. *)
Definition np_index {A} (a : list A) (i : Z) : result A :=
  let n := Z.of_nat (length a) in
  let k := if (i <? 0)%Z then (n + i)%Z else i in
  if (k <? 0)%Z then Raise IndexError
  else match nth_error a (Z.to_nat k) with
       | Some x => Ok x
       | None => Raise IndexError
       end.

(** [a[idx]] with an integer index array (rows of a matrix, entries of a
    vector). *)
Definition take {A} (a : list A) (idx : list Z) : result (list A) :=
  rmap (np_index a) idx.

(** A rational statistic; [None] is [nan]. *)
Definition stat := option Q.
(** A real statistic; [None] is a non-finite float. *)
Definition rstat := option R.

Definition Qsum (l : list Q) : Q := fold_right Qplus 0 l.

Definition Q_of_nat (n : nat) : Q := inject_Z (Z.of_nat n).

(** [np.mean] of an array of numbers: [nan] on the empty array. *)
Definition np_mean (l : list Q) : stat :=
  match l with
  | [] => None
  | _ => Some (Qsum l / Q_of_nat (length l))
  end.

(** [np.max]: raises on the empty array. *)
Definition np_max (l : list Q) : result Q :=
  match l with
  | [] => Raise ValueError
  | x :: l' => Ok (fold_left Qmax l' x)
  end.

(** The numbers of an array of statistics, unless one of them is [nan]. *)
Fixpoint numbers (l : list stat) : option (list Q) :=
  match l with
  | [] => Some []
  | Some q :: l' => option_map (cons q) (numbers l')
  | None :: _ => None
  end.

(** [np.abs(r - (1 - alpha))]. *)
Definition abs_dev (r : ndarray) (alpha : Q) : list Q :=
  map (fun x => Qabs (x - (1 - alpha))) (entries r).

(** [np.mean(np.abs(r - (1 - alpha)))]. *)
Definition mean_abs_dev (r : ndarray) (alpha : Q) : stat :=
  np_mean (abs_dev r alpha).

(** [a > b] on floats: false as soon as one side is [nan]. *)
Definition stat_gt (a b : stat) : bool :=
  match a, b with
  | Some x, Some y => negb (Qle_bool x y)
  | _, _ => false
  end.

(** [(mask).mean()] of a boolean array. *)
Definition mean_bool (mask : list bool) : stat :=
  np_mean (map (fun b : bool => if b then 1 else 0) mask).

(** [a > b] on two one-dimensional arrays, with numpy's broadcasting:
    equal lengths compare entry by entry, a length-one side is stretched,
    anything else raises. *)
Definition np_greater (a b : list stat) : result (list bool) :=
  match a, b with
  | [x], _ => Ok (map (fun y => stat_gt x y) b)
  | _, [y] => Ok (map (fun x => stat_gt x y) a)
  | _, _ =>
      if Nat.eqb (length a) (length b)
      then Ok (map (fun xy => stat_gt (fst xy) (snd xy)) (combine a b))
      else Raise ValueError
  end.

(** [np.stack((lo, hi), axis=-1)]. *)
Definition np_stack2 (lo hi : vector) : result matrix :=
  if Nat.eqb (length lo) (length hi)
  then Ok (map (fun lh => [fst lh; snd lh]) (combine lo hi))
  else Raise ValueError.

(** [float("inf")] or a finite loss. *)
Inductive loss : Type :=
| Inf
| Fin (q : Q).

(** [l < current] for a finite [l]. *)
Definition loss_lt (l : Q) (current : loss) : bool :=
  match current with
  | Inf => true
  | Fin c => negb (Qle_bool c l)
  end.

(** [needle in s] on strings. *)
Definition contains (needle s : string) : bool :=
  match String.index 0 needle s with
  | Some _ => true
  | None => false
  end.

(** ** The libraries the module imports

    Estimator objects ([Model]) are trained copies of one another: every
    method returns the object it leaves behind.  Methods that draw from
    numpy's global generator are computations over its state [rng]. *)

Class Libraries : Type := {
  Model : Type;
  kwargs : Type;
  rng : Type;
  (** [str(type(m))] *)
  type_str : Model -> string;
  (** [copy.deepcopy], [sklearn.base.clone] *)
  deepcopy : Model -> Model;
  clone : Model -> result Model;
  (** estimator methods *)
  set_params : Model -> kwargs -> result Model;
  set_ccp_alpha : Model -> Q -> result Model;
  est_fit : Model -> matrix -> vector -> py rng Model;
  est_predict : Model -> matrix -> result ndarray;
  est_predict_proba : Model -> matrix -> result ndarray;
  cost_complexity_pruning_path : Model -> matrix -> vector -> py rng (list Q);
  gridsearch : Model -> matrix -> vector -> py rng Model;
  grid_search : Model -> matrix -> vector -> py rng Model;
  move_to_cpu : Model -> result Model;
  (** constructors: [DecisionTreeClassifier(random_state, min_samples_leaf)],
      [RandomForestClassifier] with its keyword arguments, [LogisticGAM()] *)
  DecisionTreeClassifier : option Z -> nat -> Model;
  RandomForestClassifier : kwargs -> result Model;
  LogisticGAM : Model;
  (** [train_test_split(X, w, test_size, random_state)] *)
  train_test_split :
    matrix -> vector -> Q -> option Z -> py rng (matrix * matrix * vector * vector);
  brier_score_loss : vector -> ndarray -> result Q;
  (** [np.random.seed], [stats.binom.rvs(n=1, p, size)],
      [np.random.randint(high, size)] *)
  np_random_seed : Z -> py rng unit;
  binom_rvs : Q -> nat -> py rng vector;
  np_random_randint : Z -> nat -> py rng (list Z);
  (** [stats.norm.ppf], [np.quantile] *)
  norm_ppf : Q -> rstat;
  np_quantile : list stat -> Q -> result stat;
  (** [mp.cpu_count()] and the generator state a spawned worker starts in *)
  cpu_count : nat;
  worker_rng : rng;
  (** documented contracts *)
  randint_range : forall high size g l g',
    np_random_randint high size g = (Ok l, g') ->
    length l = size /\ Forall (fun i => (0 <= i < high)%Z) l;
  norm_ppf_nonneg : forall p z,
    1 # 2 <= p -> norm_ppf p = Some z -> (0 <= z)%R
}.

(** The interval predictor handed to the constructor, with the three
    calling conventions [fit] distinguishes. *)
Record Conf : Type := {
  predict_significance : matrix -> Q -> result matrix;
  predict_pi : matrix -> result (vector * vector);
  conf_predict : matrix -> result matrix
}.

Section Clover.

Context {L : Libraries}.

(** [coverage_evaluator]: a family tag or an estimator object. *)
Inductive cov_eval : Type :=
| Tag (s : string)
| Estimator (m : Model).

(** [coverage_evaluator == tag]. *)
Definition is_tag (ce : cov_eval) (tag : string) : bool :=
  match ce with
  | Tag s => String.eqb s tag
  | Estimator _ => false
  end.

(** The attributes of a [Valid_pred_sets] object.  Those that [__init__]
    does not set are absent ([None]) until [fit] creates them. *)
Record Valid_pred_sets : Type := {
  conf : Conf;
  alpha : Q;
  nc : bool;
  islcp : bool;
  coverage_evaluator : cov_eval;
  prune : bool;
  split_train : bool;
  X_train : option matrix;
  X_test : option matrix;
  w_train : option vector;
  w_test : option vector;
  model : option Model
}.

Definition __init__ (conf : Conf) (alpha : Q) (isnc islcp : bool)
    (coverage_evaluator : cov_eval) (prune split_train : bool) : Valid_pred_sets :=
  {| conf := conf; alpha := alpha; nc := isnc; islcp := islcp;
     coverage_evaluator := coverage_evaluator; prune := prune;
     split_train := split_train;
     X_train := None; X_test := None; w_train := None; w_test := None;
     model := None |}.

Definition set_model (m : Model) (s : Valid_pred_sets) : Valid_pred_sets :=
  {| conf := conf s; alpha := alpha s; nc := nc s; islcp := islcp s;
     coverage_evaluator := coverage_evaluator s; prune := prune s;
     split_train := split_train s;
     X_train := X_train s; X_test := X_test s;
     w_train := w_train s; w_test := w_test s;
     model := Some m |}.

Definition set_coverage_evaluator (ce : cov_eval) (s : Valid_pred_sets)
  : Valid_pred_sets :=
  {| conf := conf s; alpha := alpha s; nc := nc s; islcp := islcp s;
     coverage_evaluator := ce; prune := prune s;
     split_train := split_train s;
     X_train := X_train s; X_test := X_test s;
     w_train := w_train s; w_test := w_test s;
     model := model s |}.

Definition set_train (X : matrix) (w : vector) (s : Valid_pred_sets)
  : Valid_pred_sets :=
  {| conf := conf s; alpha := alpha s; nc := nc s; islcp := islcp s;
     coverage_evaluator := coverage_evaluator s; prune := prune s;
     split_train := split_train s;
     X_train := Some X; X_test := X_test s;
     w_train := Some w; w_test := w_test s;
     model := model s |}.

Definition set_test (X : matrix) (w : vector) (s : Valid_pred_sets)
  : Valid_pred_sets :=
  {| conf := conf s; alpha := alpha s; nc := nc s; islcp := islcp s;
     coverage_evaluator := coverage_evaluator s; prune := prune s;
     split_train := split_train s;
     X_train := X_train s; X_test := Some X;
     w_train := w_train s; w_test := Some w;
     model := model s |}.

(** The object together with numpy's global generator. *)
Record world : Type := {
  self : Valid_pred_sets;
  np_random : rng
}.

Definition with_rng {A} (c : py rng A) : py world A :=
  fun w => let (r, g) := c (np_random w) in
           (r, {| self := self w; np_random := g |}).

Definition get_self : py world Valid_pred_sets := fun w => (Ok (self w), w).

Definition update (f : Valid_pred_sets -> Valid_pred_sets) : py world unit :=
  fun w => (Ok tt, {| self := f (self w); np_random := np_random w |}).

(** ** Module-level functions *)

(** The test of the first branch of [predict], [retrain] and
    [retrain_par]. *)
Definition sklearn_branch (ce : cov_eval) (m : Model) : bool :=
  is_tag ce "RF" || contains "sklearn" (type_str m).

(** The shape branch on a probability table. *)
Definition positive_class (pred : ndarray) : result ndarray :=
  n <-! len_first pred ;;
  if Nat.eqb n 1 then Ok pred else column 1 pred.

Definition retrain_par (coverage_evaluator : cov_eval) (model : Model)
    (X_train : matrix) (new_w : vector) (X_test : matrix) : py rng ndarray :=
  if sklearn_branch coverage_evaluator model then
    c <- lift (clone model) ;;
    model_temp <- est_fit c X_train new_w ;;
    pred <- lift (est_predict_proba model_temp X_test) ;;
    lift (positive_class pred)
  else if is_tag coverage_evaluator "GAM" then
    g <- grid_search LogisticGAM X_train new_w ;;
    model_temp <- est_fit g X_train new_w ;;
    lift (est_predict_proba model_temp X_test)
  else
    c <- lift (move_to_cpu (deepcopy model)) ;;
    model_temp <- est_fit c X_train new_w ;;
    new_r <- lift (est_predict model_temp X_test) ;;
    ret (flatten new_r).

Definition _retrain_loop_par (coverage_evaluator : cov_eval) (model : Model)
    (alpha : Q) (X_train : matrix) (w_train : vector) (X_test : matrix)
    (seed : Z) : py rng stat :=
  np_random_seed seed ;;;
  new_w <- binom_rvs (1 - alpha) (length w_train) ;;
  new_r <- retrain_par coverage_evaluator model X_train new_w X_test ;;
  ret (mean_abs_dev new_r alpha).

Definition bootstrap_par (B : nat) (alpha : Q) (coverage_evaluator : cov_eval)
    (model : Model) (X_train : matrix) (w_train : vector) (X_test : matrix)
    (seed : Z) : py rng stat :=
  np_random_seed seed ;;;
  new_indexes <- np_random_randint (Z.of_nat (length X_train)) B ;;
  new_X_train <- lift (take X_train new_indexes) ;;
  new_w_train <- lift (take w_train new_indexes) ;;
  new_r <- retrain_par coverage_evaluator model new_X_train new_w_train X_test ;;
  ret (mean_abs_dev new_r alpha).

(** *** Calls through the process pool

    [pool.apply_async(f, args)] binds a tuple of positional arguments to
    the parameters of [f] inside the worker; a tuple of the wrong length
    is a [TypeError], delivered by [result.get()].  The call sites of
    this module put a value of the expected kind in every position they
    fill, so the other ill-formed tuples are not told apart. *)

Inductive pyval : Type :=
| VInt (z : Z)
| VFloat (q : Q)
| VEval (ce : cov_eval)
| VModel (m : Model)
| VMatrix (X : matrix)
| VVector (w : vector).

Definition call_retrain_loop_par (args : list pyval) : py rng stat :=
  match args with
  | [VEval coverage_evaluator; VModel model; VFloat alpha; VMatrix X_train;
     VVector w_train; VMatrix X_test; VInt seed] =>
      _retrain_loop_par coverage_evaluator model alpha X_train w_train X_test seed
  | _ => raise TypeError
  end.

Definition call_bootstrap_par (args : list pyval) : py rng stat :=
  match args with
  | [VInt B; VFloat alpha; VEval coverage_evaluator; VModel model;
     VMatrix X_train; VVector w_train; VMatrix X_test; VInt seed] =>
      bootstrap_par (Z.to_nat B) alpha coverage_evaluator model X_train w_train
        X_test seed
  | _ => raise TypeError
  end.

(** [ctx.Pool(processes)]. *)
Definition Pool (processes : Z) : result unit :=
  if (processes <? 1)%Z then Raise ValueError else Ok tt.

(** The outcome a task delivers: the worker runs it in its own process,
    on its own generator. *)
Definition apply_async {A} (f : list pyval -> py rng A) (args : list pyval)
  : result A :=
  fst (f args worker_rng).

(** ** Methods of [Valid_pred_sets] *)

(** The first statement of [fit]: the interval matrix, by the calling
    convention chosen at construction. *)
Definition predict_intervals (s : Valid_pred_sets) (X_calib : matrix)
  : result matrix :=
  if nc s then predict_significance (conf s) X_calib (alpha s)
  else if islcp s then
    lh <-! predict_pi (conf s) X_calib ;;
    np_stack2 (fst lh) (snd lh)
  else conf_predict (conf s) X_calib.

(** [int(y_i >= preds[i, 0] and y_i <= preds[i, 1])]; the right operand
    of [and] is only evaluated when the left one holds. *)
Definition covered (preds : matrix) (i : nat) (y_i : Q) : result Q :=
  lower <-! index2 preds i 0 ;;
  if Qle_bool lower y_i then
    upper <-! index2 preds i 1 ;;
    Ok (if Qle_bool y_i upper then 1 else 0)
  else Ok 0.

(** The labelling loop of [fit], from row [i] on. *)
Fixpoint label_from (preds : matrix) (i : nat) (y : vector) : result vector :=
  match y with
  | [] => Ok []
  | y_i :: y' =>
      w_i <-! covered preds i y_i ;;
      w' <-! label_from preds (S i) y' ;;
      Ok (w_i :: w')
  end.

Definition label (y_calib : vector) (preds : matrix) : result vector :=
  label_from preds 0 y_calib.

Definition score_candidate (m : Model) (X_train X_valid : matrix)
    (w_train w_valid : vector) (ccp_alpha : Q) : py rng Q :=
  c <- lift (clone m) ;;
  c <- lift (set_ccp_alpha c ccp_alpha) ;;
  fitted <- est_fit c X_train w_train ;;
  preds_ccp <- lift (est_predict fitted X_valid) ;;
  lift (brier_score_loss w_valid preds_ccp).

(** The loop of [prune_tree] over the locals [current_loss] and
    [optim_ccp]; [optim_ccp] is unbound ([None]) until first assigned. *)
Fixpoint prune_loop (m : Model) (X_train X_valid : matrix)
    (w_train w_valid : vector) (ccp_alphas : list Q)
    (current_loss : loss) (optim_ccp : option Q) : py rng (loss * option Q) :=
  match ccp_alphas with
  | [] => ret (current_loss, optim_ccp)
  | ccp_alpha :: rest =>
      loss_ccp <- score_candidate m X_train X_valid w_train w_valid ccp_alpha ;;
      if loss_lt loss_ccp current_loss
      then prune_loop m X_train X_valid w_train w_valid rest
             (Fin loss_ccp) (Some ccp_alpha)
      else prune_loop m X_train X_valid w_train w_valid rest
             current_loss optim_ccp
  end.

Definition prune_tree (s : Valid_pred_sets) (X_train X_valid : matrix)
    (w_train w_valid : vector) : py rng Q :=
  m <- lift (attr "model" (model s)) ;;
  ccp_alphas <- cost_complexity_pruning_path m X_train w_train ;;
  st <- prune_loop m X_train X_valid w_train w_valid ccp_alphas Inf None ;;
  match snd st with
  | Some optim_ccp => ret optim_ccp
  | None => raise (UnboundLocalError "optim_ccp")
  end.

Definition _init_coverage_evaluator (random_seed prune_seed : Z) (kw : kwargs)
  : py world unit :=
  s <- get_self ;;
  if is_tag (coverage_evaluator s) "CART" then
    m <- lift (set_params (DecisionTreeClassifier (Some random_seed) 100) kw) ;;
    update (set_model m) ;;;
    if prune s then
      X <- lift (attr "X_train" (X_train s)) ;;
      w <- lift (attr "w_train" (w_train s)) ;;
      split <- with_rng (train_test_split X w (1 # 2) (Some prune_seed)) ;;
      let '(X_train_prune, X_test_prune, w_train_prune, w_test_prune) := split in
      optim_ccp <- with_rng (prune_tree (set_model m s) X_train_prune
                               X_test_prune w_train_prune w_test_prune) ;;
      m <- lift (set_ccp_alpha m optim_ccp) ;;
      update (set_model m) ;;;
      m <- with_rng (est_fit m X w) ;;
      update (set_model m)
    else
      m <- lift (set_params (DecisionTreeClassifier None 100) kw) ;;
      X <- lift (attr "X_train" (X_train s)) ;;
      w <- lift (attr "w_train" (w_train s)) ;;
      m <- with_rng (est_fit m X w) ;;
      update (set_model m)
  else if is_tag (coverage_evaluator s) "RF" then
    m <- lift (RandomForestClassifier kw) ;;
    X <- lift (attr "X_train" (X_train s)) ;;
    w <- lift (attr "w_train" (w_train s)) ;;
    m <- with_rng (est_fit m X w) ;;
    update (set_model m)
  else if is_tag (coverage_evaluator s) "GAM" then
    X <- lift (attr "X_train" (X_train s)) ;;
    w <- lift (attr "w_train" (w_train s)) ;;
    m <- with_rng (gridsearch LogisticGAM X w) ;;
    m <- with_rng (est_fit m X w) ;;
    update (set_model m)
  else
    match coverage_evaluator s with
    | Tag _ => raise (AttributeError "set_params")
    | Estimator e =>
        m <- lift (set_params e kw) ;;
        update (set_coverage_evaluator (Estimator m)) ;;;
        X <- lift (attr "X_train" (X_train s)) ;;
        w <- lift (attr "w_train" (w_train s)) ;;
        m <- with_rng (est_fit m X w) ;;
        update (set_coverage_evaluator (Estimator m)) ;;;
        update (set_model m)
    end.

Definition fit (X_calib : matrix) (y_calib : vector)
    (random_seed prune_seed : Z) (test_size : Q) (kw : kwargs) : py world unit :=
  s <- get_self ;;
  preds <- lift (predict_intervals s X_calib) ;;
  with_rng (np_random_seed random_seed) ;;;
  w <- lift (label y_calib preds) ;;
  (if split_train s then
     split <- with_rng (train_test_split X_calib w test_size None) ;;
     let '(Xtr, Xte, wtr, wte) := split in
     update (set_train Xtr wtr) ;;;
     update (set_test Xte wte)
   else update (set_train X_calib w)) ;;;
  _init_coverage_evaluator random_seed prune_seed kw.

(** Falling off the end of [predict] returns Python's [None]. *)
Definition predict (s : Valid_pred_sets) (X_test : matrix)
  : result (option ndarray) :=
  b <-! (if is_tag (coverage_evaluator s) "RF" then Ok true
         else m <-! attr "model" (model s) ;;
              Ok (contains "sklearn" (type_str m))) ;;
  if b then
    m <-! attr "model" (model s) ;;
    pred <-! est_predict_proba m X_test ;;
    r <-! positive_class pred ;;
    Ok (Some r)
  else if is_tag (coverage_evaluator s) "GAM" then
    m <-! attr "model" (model s) ;;
    pred <-! est_predict_proba m X_test ;;
    Ok (Some pred)
  else if is_tag (coverage_evaluator s) "nnet" then
    m <-! attr "model" (model s) ;;
    pred <-! est_predict m X_test ;;
    Ok (Some (flatten pred))
  else Ok None.

(** The first two branches predict on the attribute [self.X_test], the
    last one on the argument. *)
Definition retrain (s : Valid_pred_sets) (X_train : matrix) (new_w : vector)
    (X_test_arg : matrix) : py rng ndarray :=
  b <- lift (if is_tag (coverage_evaluator s) "RF" then Ok true
             else m <-! attr "model" (model s) ;;
                  Ok (contains "sklearn" (type_str m))) ;;
  if b : bool then
    m <- lift (attr "model" (model s)) ;;
    c <- lift (clone m) ;;
    model_temp <- est_fit c X_train new_w ;;
    X <- lift (attr "X_test" (X_test s)) ;;
    pred <- lift (est_predict_proba model_temp X) ;;
    lift (positive_class pred)
  else if is_tag (coverage_evaluator s) "GAM" then
    g <- grid_search LogisticGAM X_train new_w ;;
    model_temp <- est_fit g X_train new_w ;;
    X <- lift (attr "X_test" (X_test s)) ;;
    lift (est_predict_proba model_temp X)
  else
    m <- lift (attr "model" (model s)) ;;
    model_temp <- est_fit (deepcopy m) X_train new_w ;;
    new_r <- lift (est_predict model_temp X_test_arg) ;;
    ret (flatten new_r).

Definition r_prob (s : Valid_pred_sets) (X_grid : matrix)
  : result (option ndarray) :=
  predict s X_grid.

(** [r - (1 - alpha)] needs an array: on [None] it is a [TypeError]. *)
Definition as_array (r : option ndarray) : result ndarray :=
  match r with
  | Some a => Ok a
  | None => Raise TypeError
  end.

Definition compute_dif (s : Valid_pred_sets) : result (stat * Q) :=
  r <-! (if split_train s
         then X <-! attr "X_test" (X_test s) ;; predict s X
         else X <-! attr "X_train" (X_train s) ;; predict s X) ;;
  r <-! as_array r ;;
  let t_obs := mean_abs_dev r (alpha s) in
  t_max <-! np_max (abs_dev r (alpha s)) ;;
  Ok (t_obs, t_max).

(** The dictionary returned by [monte_carlo_test]. *)
Record TestResult : Type := {
  p_value : stat;
  observed_statistic : stat * Q
}.

(** One iteration of the sequential loop of [monte_carlo_test]. *)
Definition monte_carlo_body (s : Valid_pred_sets) : py rng stat :=
  w <- lift (attr "w_train" (w_train s)) ;;
  new_w <- binom_rvs (1 - alpha s) (length w) ;;
  X <- lift (attr "X_train" (X_train s)) ;;
  Xt <- lift (attr "X_test" (X_test s)) ;;
  new_r <- retrain s X new_w Xt ;;
  ret (mean_abs_dev new_r (alpha s)).

(** The argument tuple of one task of the parallel Monte Carlo loop. *)
Definition monte_carlo_args (s : Valid_pred_sets) (seed : Z)
  : result (list pyval) :=
  m <-! attr "model" (model s) ;;
  X <-! attr "X_train" (X_train s) ;;
  w <-! attr "w_train" (w_train s) ;;
  Xt <-! attr "X_test" (X_test s) ;;
  Ok [VEval (coverage_evaluator s); VModel m; VFloat (alpha s); VMatrix X;
      VVector w; VMatrix Xt; VInt seed].

Definition monte_carlo_test (s : Valid_pred_sets) (B : nat) (random_seed : Z)
    (par : bool) : py rng TestResult :=
  t_obs <- lift (compute_dif s) ;;
  np_random_seed random_seed ;;;
  t_b <- (if negb par then
            for_range B (fun _ => monte_carlo_body s)
          else
            lift (Pool (Z.of_nat cpu_count - 1)) ;;;
            seeds <- np_random_randint 100000000 B ;;
            t_b <- lift (rmap (fun seed =>
                           args <-! monte_carlo_args s seed ;;
                           Ok (apply_async call_retrain_loop_par args)) seeds) ;;
            lift (rmap (fun task => task) t_b)) ;;
  mask <- lift (np_greater t_b [fst t_obs; Some (snd t_obs)]) ;;
  ret {| p_value := mean_bool mask; observed_statistic := t_obs |}.

(** The dictionary returned by [bootstrap_ci]. *)
Record BootstrapResult : Type := {
  t_obs : stat;
  SE_confidence_interval : rstat * rstat;
  Percentile_interval : stat * stat
}.

(** One iteration of the sequential loop of [bootstrap_ci]. *)
Definition bootstrap_body (s : Valid_pred_sets) (B : nat) : py rng stat :=
  X <- lift (attr "X_train" (X_train s)) ;;
  new_indexes <- np_random_randint (Z.of_nat (length X)) B ;;
  new_X_train <- lift (take X new_indexes) ;;
  w <- lift (attr "w_train" (w_train s)) ;;
  new_w_train <- lift (take w new_indexes) ;;
  Xt <- lift (attr "X_test" (X_test s)) ;;
  new_r <- retrain s new_X_train new_w_train Xt ;;
  ret (mean_abs_dev new_r (alpha s)).

(** The argument tuple of one task of the parallel bootstrap loop, as
    the call site builds it. *)
Definition bootstrap_args (s : Valid_pred_sets) (B : nat) (seed : Z)
  : result (list pyval) :=
  m <-! attr "model" (model s) ;;
  X <-! attr "X_train" (X_train s) ;;
  w <-! attr "w_train" (w_train s) ;;
  Xt <-! attr "X_test" (X_test s) ;;
  Ok [VInt (Z.of_nat B); VFloat (alpha s); VEval (coverage_evaluator s);
      VModel m; VFloat (alpha s); VMatrix X; VVector w; VMatrix Xt; VInt seed].

(** The statistic array [t_vec] of [bootstrap_ci]. *)
Definition bootstrap_t_vec (s : Valid_pred_sets) (B : nat) (par : bool)
  : py rng (list stat) :=
  if negb par then
    for_range B (fun _ => bootstrap_body s B)
  else
    lift (Pool (Z.of_nat cpu_count - 1)) ;;;
    seeds <- np_random_randint 100000000 B ;;
    t_vec <- lift (rmap (fun seed =>
                     args <-! bootstrap_args s B seed ;;
                     Ok (apply_async call_bootstrap_par args)) seeds) ;;
    lift (rmap (fun task => task) t_vec).

(** [np.mean] of an array of statistics. *)
Definition np_mean_stats (t : list stat) : stat :=
  match numbers t with
  | Some qs => np_mean qs
  | None => None
  end.

(** [np.sum((t_vec - np.mean(t_vec)) ** 2)]; the sum of the empty array
    is [0.0]. *)
Definition sum_sq_dev (t_vec : list stat) : stat :=
  match t_vec with
  | [] => Some 0
  | _ =>
      match numbers t_vec, np_mean_stats t_vec with
      | Some qs, Some m => Some (Qsum (map (fun t => (t - m) ^ 2) qs))
      | _, _ => None
      end
  end.

(** [np.sqrt]: [nan] below zero. *)
Definition np_sqrt (x : stat) : rstat :=
  match x with
  | Some q => if Qle_bool 0 q then Some (sqrt (Q2R q)) else None
  | None => None
  end.

(** [epb]; the integer division [1 / (B - 1)] raises when [B = 1]. *)
Definition bootstrap_se (B : nat) (t_vec : list stat) : result rstat :=
  if Nat.eqb B 1 then Raise ZeroDivisionError
  else
    let factor := 1 / (Q_of_nat B - 1) in
    Ok (np_sqrt (option_map (Qmult factor) (sum_sq_dev t_vec))).

Definition rstat_of (t : stat) : rstat := option_map Q2R t.

Definition rstat_op (f : R -> R -> R) (a b : rstat) : rstat :=
  match a, b with
  | Some x, Some y => Some (f x y)
  | _, _ => None
  end.

Definition bootstrap_ci (s : Valid_pred_sets) (B : nat) (sig_b : Q)
    (random_seed : Z) (par : bool) : py rng BootstrapResult :=
  X <- lift (attr "X_test" (X_test s)) ;;
  r <- lift (predict s X) ;;
  r <- lift (as_array r) ;;
  let t_obs := mean_abs_dev r (alpha s) in
  np_random_seed random_seed ;;;
  t_vec <- bootstrap_t_vec s B par ;;
  epb <- lift (bootstrap_se B t_vec) ;;
  let half := rstat_op Rmult (norm_ppf (1 - sig_b / 2)) epb in
  let se_int := (rstat_op Rminus (rstat_of t_obs) half,
                 rstat_op Rplus (rstat_of t_obs) half) in
  lower <- lift (np_quantile t_vec (sig_b / 2)) ;;
  upper <- lift (np_quantile t_vec (1 - sig_b / 2)) ;;
  ret {| t_obs := t_obs;
         SE_confidence_interval := se_int;
         Percentile_interval := (lower, upper) |}.

End Clover.

(** ** The bounds of the SE interval in floating point

    The two expressions of [se_int] in [bootstrap_ci],
    [t_obs - z * epb] and [t_obs + z * epb], on binary64 values, with
    the rounding of each operation; [midpoint] is the mean of two
    bounds. *)
Module Binary64.
Import PrimFloat.

Definition se_bounds (t_obs z epb : float) : float * float :=
  (t_obs - z * epb, t_obs + z * epb)%float.

Definition midpoint (bounds : float * float) : float :=
  ((fst bounds + snd bounds) / 2)%float.

End Binary64.

(** ** The quantile-regression adapters

    [LinearQuantileRegression] and [GradientBoostingQuantileRegression]
    wrap two scikit-learn regressors, one per quantile level, and
    predict the matrix of their two predictions.  A scikit-learn
    regressor is modelled by its parameters and, once fitted, the state
    its [fit] computed; what [fit] and [predict] compute belongs to the
    library. *)

Class Regressors : Type := {
  solver_options_t : Type;
  boost_kwargs : Type;
  (** fitted state of a [QuantileRegressor], of a
      [GradientBoostingRegressor] *)
  Coef : Type;
  Trees : Type;
  (** state of the global generator gradient boosting draws from *)
  gen : Type;
  (** the [solver] of [QuantileRegressor()] *)
  default_solver : string;
  (** [QuantileRegressor.fit] from [quantile], [alpha], [fit_intercept],
      [solver], [solver_options]; [QuantileRegressor.predict] *)
  quantile_fit :
    Q -> Q -> bool -> string -> option solver_options_t ->
    matrix -> vector -> result Coef;
  quantile_predict : Coef -> matrix -> result vector;
  (** [GradientBoostingRegressor(loss, alpha, ...)] accepts the keyword
      arguments or raises; its [fit] from [loss], [alpha] and the
      keywords; its [predict] *)
  boost_accepts : boost_kwargs -> result unit;
  boost_fit : string -> Q -> boost_kwargs -> matrix -> vector -> py gen Trees;
  boost_predict : Trees -> matrix -> result vector
}.

(** [np.vstack((lower, upper))] of two one-dimensional arrays. *)
Definition np_vstack2 (lower upper : vector) : result matrix :=
  if Nat.eqb (length lower) (length upper)
  then Ok [lower; upper]
  else Raise ValueError.

(** [m.T] of a two-dimensional array. *)
Definition transpose (m : matrix) : matrix :=
  match m with
  | [] => []
  | row :: _ => map (fun j => map (fun r => nth j r 0) m) (seq 0 (length row))
  end.

Module LinearQuantileRegression.
Section Class_.

Context {Rg : Regressors}.

(** A [QuantileRegressor] object. *)
Record QuantileRegressor : Type := {
  quantile : Q;
  qr_alpha : Q;
  qr_fit_intercept : bool;
  qr_solver : string;
  qr_solver_options : option solver_options_t;
  coef_ : option Coef
}.

(** [QuantileRegressor()]; [clone] of it is the same unfitted object. *)
Definition new_QuantileRegressor : QuantileRegressor :=
  {| quantile := 1 # 2; qr_alpha := 1; qr_fit_intercept := true;
     qr_solver := default_solver; qr_solver_options := None; coef_ := None |}.

(** [r.set_params(quantile, alpha, fit_intercept, solver,
    solver_options)]: the attributes are assigned, the fitted state is
    not touched. *)
Definition set_params (r : QuantileRegressor) (quantile alpha : Q)
    (fit_intercept : bool) (solver : string)
    (solver_options : option solver_options_t) : QuantileRegressor :=
  {| quantile := quantile; qr_alpha := alpha;
     qr_fit_intercept := fit_intercept; qr_solver := solver;
     qr_solver_options := solver_options; coef_ := coef_ r |}.

(** [r.fit(X, y)]. *)
Definition regressor_fit (r : QuantileRegressor) (X : matrix) (y : vector)
  : result QuantileRegressor :=
  c <-! quantile_fit (quantile r) (qr_alpha r) (qr_fit_intercept r)
          (qr_solver r) (qr_solver_options r) X y ;;
  Ok {| quantile := quantile r; qr_alpha := qr_alpha r;
        qr_fit_intercept := qr_fit_intercept r; qr_solver := qr_solver r;
        qr_solver_options := qr_solver_options r; coef_ := Some c |}.

(** [r.predict(X)]. *)
Definition regressor_predict (r : QuantileRegressor) (X : matrix)
  : result vector :=
  match coef_ r with
  | Some c => quantile_predict c X
  | None => Raise (LibraryError "NotFittedError")
  end.

(** The attributes of a [LinearQuantileRegression] object. *)
Record t : Type := {
  coverage : Q;
  alpha : Q;
  fit_intercept : bool;
  solver : string;
  solver_options : option solver_options_t;
  lower : QuantileRegressor;
  upper : QuantileRegressor
}.

(** The loop over [dir()] assigns each argument to the attribute of its
    name. *)
Definition __init__ (coverage alpha : Q) (fit_intercept : bool)
    (solver : string) (solver_options : option solver_options_t) : t :=
  {| coverage := coverage; alpha := alpha; fit_intercept := fit_intercept;
     solver := solver; solver_options := solver_options;
     lower := new_QuantileRegressor; upper := new_QuantileRegressor |}.

Definition set_lower (r : QuantileRegressor) (self : t) : t :=
  {| coverage := coverage self; alpha := alpha self;
     fit_intercept := fit_intercept self; solver := solver self;
     solver_options := solver_options self;
     lower := r; upper := upper self |}.

Definition set_upper (r : QuantileRegressor) (self : t) : t :=
  {| coverage := coverage self; alpha := alpha self;
     fit_intercept := fit_intercept self; solver := solver self;
     solver_options := solver_options self;
     lower := lower self; upper := r |}.

Definition fit (X : matrix) (y : vector) : py t unit :=
  self <- (fun s => (Ok s, s)) ;;
  let quantiles := (coverage self / 2, 1 - coverage self / 2) in
  let l := set_params (lower self) (fst quantiles) (alpha self)
             (fit_intercept self) (solver self) (solver_options self) in
  (fun s => (Ok tt, set_lower l s)) ;;;
  l <- lift (regressor_fit l X y) ;;
  (fun s => (Ok tt, set_lower l s)) ;;;
  let u := set_params (upper self) (snd quantiles) (alpha self)
             (fit_intercept self) (solver self) (solver_options self) in
  (fun s => (Ok tt, set_upper u s)) ;;;
  u <- lift (regressor_fit u X y) ;;
  (fun s => (Ok tt, set_upper u s)).

(** The keyword arguments of [predict] are not used. *)
Definition predict (self : t) (X : matrix) : result matrix :=
  lower <-! regressor_predict (lower self) X ;;
  upper <-! regressor_predict (upper self) X ;;
  stacked <-! np_vstack2 lower upper ;;
  Ok (transpose stacked).

(** The object as the interval predictor of a [Valid_pred_sets]:
    [predict] takes and ignores the keyword [significance], and the
    class has no method [predict_pi]. *)
Definition as_conf (self : t) : Conf :=
  {| predict_significance := fun X _ => predict self X;
     predict_pi := fun _ => Raise (AttributeError "predict_pi");
     conf_predict := predict self |}.

End Class_.
End LinearQuantileRegression.

Module GradientBoostingQuantileRegression.
Section Class_.

Context {Rg : Regressors}.

(** A [GradientBoostingRegressor] object. *)
Record GradientBoostingRegressor : Type := {
  gb_loss : string;
  gb_alpha : Q;
  gb_kwargs : boost_kwargs;
  estimators_ : option Trees
}.

(** [GradientBoostingRegressor(loss=loss, alpha=alpha, ...)]. *)
Definition new_GradientBoostingRegressor (loss : string) (alpha : Q)
    (kw : boost_kwargs) : result GradientBoostingRegressor :=
  _ <-! boost_accepts kw ;;
  Ok {| gb_loss := loss; gb_alpha := alpha; gb_kwargs := kw;
        estimators_ := None |}.

Definition regressor_fit (r : GradientBoostingRegressor) (X : matrix)
    (y : vector) : py gen GradientBoostingRegressor :=
  trees <- boost_fit (gb_loss r) (gb_alpha r) (gb_kwargs r) X y ;;
  ret {| gb_loss := gb_loss r; gb_alpha := gb_alpha r;
         gb_kwargs := gb_kwargs r; estimators_ := Some trees |}.

Definition regressor_predict (r : GradientBoostingRegressor) (X : matrix)
  : result vector :=
  match estimators_ r with
  | Some trees => boost_predict trees X
  | None => Raise (LibraryError "NotFittedError")
  end.

(** The attributes of a [GradientBoostingQuantileRegression] object. *)
Record t : Type := {
  coverage : Q;
  loss : string;
  lower : GradientBoostingRegressor;
  upper : GradientBoostingRegressor
}.

Definition __init__ (coverage : Q) (loss : string) (kw : boost_kwargs)
  : result t :=
  let quantiles := (coverage / 2, 1 - coverage / 2) in
  lower <-! new_GradientBoostingRegressor loss (fst quantiles) kw ;;
  upper <-! new_GradientBoostingRegressor loss (snd quantiles) kw ;;
  Ok {| coverage := coverage; loss := loss; lower := lower; upper := upper |}.

(** The object and the generator its regressors draw from. *)
Definition fit (X : matrix) (y : vector) : py (t * gen) unit :=
  fun st =>
    let (self, g) := st in
    match regressor_fit (lower self) X y g with
    | (Raise e, g1) => (Raise e, (self, g1))
    | (Ok l, g1) =>
        let self1 := {| coverage := coverage self; loss := loss self;
                        lower := l; upper := upper self |} in
        match regressor_fit (upper self1) X y g1 with
        | (Raise e, g2) => (Raise e, (self1, g2))
        | (Ok u, g2) =>
            (Ok tt, ({| coverage := coverage self1; loss := loss self1;
                        lower := lower self1; upper := u |}, g2))
        end
    end.

(** The keyword arguments of [predict] are not used. *)
Definition predict (self : t) (X : matrix) : result matrix :=
  lower <-! regressor_predict (lower self) X ;;
  upper <-! regressor_predict (upper self) X ;;
  stacked <-! np_vstack2 lower upper ;;
  Ok (transpose stacked).

Definition as_conf (self : t) : Conf :=
  {| predict_significance := fun X _ => predict self X;
     predict_pi := fun _ => Raise (AttributeError "predict_pi");
     conf_predict := predict self |}.

End Class_.
End GradientBoostingQuantileRegression.

(** ** A small executable instance of the library interface

    Used to run the embedding on concrete inputs.  The estimator learns
    the rate of positive labels of its training set: its probability
    table has the columns of the observed classes (one column when the
    labels are all equal, as scikit-learn's classifiers do), and its
    class prediction is thresholded by the pruning strength.  The
    generator is a linear congruential one. *)

Module Sim.

Record estimator : Type := {
  type_of : string;
  path : list Q;
  ccp_alpha : Q;
  fitted : option vector
}.

Definition tree_type : string := "<class 'sklearn.tree._classes.DecisionTreeClassifier'>".
Definition forest_type : string := "<class 'sklearn.ensemble._forest.RandomForestClassifier'>".
Definition gam_type : string := "<class 'pygam.pygam.LogisticGAM'>".

Definition unfitted (m : estimator) : estimator :=
  {| type_of := type_of m; path := path m; ccp_alpha := ccp_alpha m;
     fitted := None |}.

Definition with_ccp (m : estimator) (a : Q) : result estimator :=
  Ok {| type_of := type_of m; path := path m; ccp_alpha := a;
        fitted := fitted m |}.

Definition samples_ok (X : matrix) (w : vector) : bool :=
  Nat.eqb (length X) (length w) && negb (Nat.eqb (length X) 0).

Definition fit_on (m : estimator) (X : matrix) (w : vector) : py Z estimator :=
  if samples_ok X w
  then ret {| type_of := type_of m; path := path m; ccp_alpha := ccp_alpha m;
              fitted := Some w |}
  else raise ValueError.

Definition rate (w : vector) : Q := Qred (Qsum w / Q_of_nat (length w)).

Definition proba (m : estimator) (X : matrix) : result ndarray :=
  match fitted m, X with
  | None, _ => Raise (LibraryError "NotFittedError")
  | _, [] => Raise ValueError
  | Some w, _ =>
      let p := rate w in
      if contains "pygam" (type_of m) then Ok (Arr1 (map (fun _ => p) X))
      else if Qeq_bool p 0 || Qeq_bool p 1 then Ok (Arr2 (map (fun _ => [1]) X))
      else Ok (Arr2 (map (fun _ => [1 - p; p]) X))
  end.

Definition classes (m : estimator) (X : matrix) : result ndarray :=
  match fitted m, X with
  | None, _ => Raise (LibraryError "NotFittedError")
  | _, [] => Raise ValueError
  | Some w, _ =>
      let c := if Qle_bool ((1 # 2) + ccp_alpha m) (rate w) then 1 else 0 in
      Ok (Arr1 (map (fun _ => c) X))
  end.

Definition pruning_path (m : estimator) (X : matrix) (w : vector)
  : py Z (list Q) :=
  if samples_ok X w then ret (path m) else raise ValueError.

Definition no_grid_search (m : estimator) (X : matrix) (w : vector)
  : py Z estimator :=
  raise (AttributeError "grid_search").

(** The last [n_test] samples are held out. *)
Definition split (X : matrix) (w : vector) (test_size : Q) (random_state : option Z)
  : py Z (matrix * matrix * vector * vector) :=
  let n := length X in
  let n_test := Z.to_nat (Qceiling (test_size * Q_of_nat n)) in
  let n_train := (n - n_test)%nat in
  if negb (Nat.eqb n (length w)) || Nat.eqb n_train 0 || Nat.eqb n_test 0
  then raise ValueError
  else ret (firstn n_train X, skipn n_train X, firstn n_train w, skipn n_train w).

Definition brier (w : vector) (p : ndarray) : result Q :=
  let ps := entries p in
  if negb (Nat.eqb (length w) (length ps)) || Nat.eqb (length w) 0
  then Raise ValueError
  else Ok (Qred (Qsum (map (fun wp => (fst wp - snd wp) ^ 2) (combine w ps))
                 / Q_of_nat (length w))).

Definition next (g : Z) : Z := ((g * 1103515245 + 12345) mod 2147483648)%Z.

Definition seed (z : Z) : py Z unit :=
  fun _ => if (z <? 0)%Z then (Raise ValueError, z) else (Ok tt, z).

Fixpoint draws (n : nat) (g : Z) : list Z * Z :=
  match n with
  | O => ([], g)
  | S n' => let g1 := next g in
            let (l, g2) := draws n' g1 in (g1 :: l, g2)
  end.

Definition binom (p : Q) (size : nat) : py Z vector :=
  fun g => let (l, g') := draws size g in
           (Ok (map (fun x => if Qle_bool p (x # 2147483648) then 0 else 1) l), g').

Definition randint (high : Z) (size : nat) : py Z (list Z) :=
  fun g => match size with
           | O => (Ok [], g)
           | _ => if (high <=? 0)%Z then (Raise ValueError, g)
                  else let (l, g') := draws size g in
                       (Ok (map (fun x => (x mod high)%Z) l), g')
           end.

(** A stand-in for the normal quantile with its sign and its domain. *)
Definition ppf (p : Q) : rstat :=
  if Qle_bool p 0 || Qle_bool 1 p then None
  else Some (Q2R (4 * (p - (1 # 2)))).

Fixpoint insert (x : Q) (l : list Q) : list Q :=
  match l with
  | [] => [x]
  | y :: l' => if Qle_bool x y then x :: l else y :: insert x l'
  end.

Definition sort (l : list Q) : list Q := fold_right insert [] l.

(** Linear interpolation between the two nearest order statistics. *)
Definition quantile (t : list stat) (q : Q) : result stat :=
  if negb (Qle_bool 0 q && Qle_bool q 1) then Raise ValueError
  else match numbers t with
       | None | Some [] => Ok None
       | Some qs =>
           let s := sort qs in
           let h := q * Q_of_nat (length qs - 1) in
           let k := Z.to_nat (Qfloor h) in
           let a := nth k s 0 in
           let b := nth (S k) s a in
           Ok (Some (Qred (a + (h - inject_Z (Qfloor h)) * (b - a))))
       end.

Lemma draws_length (n : nat) : forall g, length (fst (draws n g)) = n.
Proof.
  induction n as [|n IH]; intro g; simpl; [reflexivity|].
  specialize (IH (next g)). destruct (draws n (next g)); simpl in *. now rewrite IH.
Qed.

Lemma randint_in_range (high : Z) (size : nat) (g : Z) (l : list Z) (g' : Z) :
  randint high size g = (Ok l, g') ->
  length l = size /\ Forall (fun i => (0 <= i < high)%Z) l.
Proof.
  unfold randint. destruct size as [|n].
  - intros [= <- _]. split; [reflexivity | constructor].
  - destruct (Z.leb_spec high 0) as [Hh|Hh]; [discriminate|].
    pose proof (draws_length (S n) g) as Hlen.
    destruct (draws (S n) g) as [xs g2]. intros [= <- _]. split.
    + now rewrite length_map.
    + apply Forall_forall. intros i Hi. apply in_map_iff in Hi as [x [<- _]].
      apply Z.mod_pos_bound. lia.
Qed.

Lemma ppf_sign (p : Q) (z : R) : 1 # 2 <= p -> ppf p = Some z -> (0 <= z)%R.
Proof.
  unfold ppf. intros Hp. destruct (Qle_bool p 0 || Qle_bool 1 p); [discriminate|].
  intros [= <-]. replace 0%R with (Q2R 0) by (unfold Q2R; simpl; lra).
  apply Qle_Rle. Lqa.lra.
Qed.

#[export] Instance libraries : Libraries := {|
  Model := estimator;
  kwargs := unit;
  rng := Z;
  type_str := type_of;
  deepcopy := fun m => m;
  clone := fun m => Ok (unfitted m);
  set_params := fun m _ => Ok m;
  set_ccp_alpha := with_ccp;
  est_fit := fit_on;
  est_predict := classes;
  est_predict_proba := proba;
  cost_complexity_pruning_path := pruning_path;
  gridsearch := fit_on;
  grid_search := no_grid_search;
  move_to_cpu := fun m => Ok m;
  DecisionTreeClassifier := fun _ _ =>
    {| type_of := tree_type; path := [0; 1 # 10; 1 # 4]; ccp_alpha := 0;
       fitted := None |};
  RandomForestClassifier := fun _ =>
    Ok {| type_of := forest_type; path := []; ccp_alpha := 0; fitted := None |};
  LogisticGAM :=
    {| type_of := gam_type; path := []; ccp_alpha := 0; fitted := None |};
  train_test_split := split;
  brier_score_loss := brier;
  np_random_seed := seed;
  binom_rvs := binom;
  np_random_randint := randint;
  norm_ppf := ppf;
  np_quantile := quantile;
  cpu_count := 4;
  worker_rng := 0%Z;
  randint_range := randint_in_range;
  norm_ppf_nonneg := ppf_sign
|}.

(** An interval predictor returning [x_0 - 1, x_0 + 1] for each row. *)
Definition band (X : matrix) : result matrix :=
  Ok (map (fun row => [nth 0 row 0 - 1; nth 0 row 0 + 1]) X).

Definition predictor : Conf :=
  {| predict_significance := fun X _ => band X;
     predict_pi := fun X => Ok (map (fun row => nth 0 row 0 - 1) X,
                                map (fun row => nth 0 row 0 + 1) X);
     conf_predict := band |}.

(** Ten calibration rows; the targets of rows 2, 5 and 9 miss their
    interval. *)
Definition X_calib : matrix :=
  [[0]; [1]; [2]; [3]; [4]; [5]; [6]; [7]; [8]; [9]].
Definition y_calib : vector :=
  [0; 1 # 2; 4; 3; 5; 9; 6; 15 # 2; 7; 11].

Definition analysis (tag : string) (split_train : bool) : Valid_pred_sets :=
  __init__ predictor (1 # 10) false false (Tag tag) true split_train.

Definition start (tag : string) (split_train : bool) : world :=
  {| self := analysis tag split_train; np_random := 0%Z |}.

(** The world after [fit] with the default seeds and test size. *)
Definition fitted_world (tag : string) (split_train : bool) : world :=
  snd (fit X_calib y_calib 1250 650 (1 # 5) tt (start tag split_train)).

End Sim.

(** ** Analyses used as concrete inputs

    Fitted on the ten calibration rows of [Sim] with the default seeds. *)

Definition cart_fitted : @Valid_pred_sets Sim.libraries :=
  self (Sim.fitted_world "CART" true).
Definition forest_no_split : @Valid_pred_sets Sim.libraries :=
  self (Sim.fitted_world "RF" false).

(** The interval matrix of the ten calibration rows. *)
Definition intervals : matrix :=
  Eval vm_compute in
    match Sim.band Sim.X_calib with
    | Ok preds => preds
    | Raise _ => []
    end.

(** An analysis whose tree saw a single class: its probability table has
    one column. *)
Definition single_class : @Valid_pred_sets Sim.libraries :=
  @set_model Sim.libraries
    {| Sim.type_of := Sim.tree_type; Sim.path := [0]; Sim.ccp_alpha := 0;
       Sim.fitted := Some [1; 1; 1] |} cart_fitted.

(** An executable instance of [Regressors]: a fitted regressor shifts the
    first feature by an amount that grows with its quantile level. *)
Module SimQ.

Definition levels_ok (q : Q) (X : matrix) (y : vector) : bool :=
  negb (Qle_bool q 0) && negb (Qle_bool 1 q) &&
  Nat.eqb (length X) (length y) && negb (Nat.eqb (length X) 0).

Definition shift (q : Q) (X : matrix) : result vector :=
  Ok (map (fun row => Qred (nth 0 row 0 + 4 * (q - (1 # 2)))) X).

#[export] Instance regressors : Regressors := {|
  solver_options_t := unit;
  boost_kwargs := unit;
  Coef := Q;
  Trees := Q;
  gen := Z;
  default_solver := "highs";
  quantile_fit := fun q _ _ _ _ X y =>
    if levels_ok q X y then Ok q else Raise ValueError;
  quantile_predict := shift;
  boost_accepts := fun _ => Ok tt;
  boost_fit := fun _ q _ X y =>
    if levels_ok q X y then ret q else raise ValueError;
  boost_predict := shift
|}.

(** The linear adapter with the defaults of its constructor, and the
    object its [fit] leaves on three rows. *)
Definition linear : LinearQuantileRegression.t :=
  LinearQuantileRegression.__init__ (1 # 20) 0 true "highs" None.

Definition linear_fitted : LinearQuantileRegression.t :=
  snd (LinearQuantileRegression.fit [[0]; [1]; [2]] [0; 1; 2] linear).

End SimQ.

(** An estimator object of a type outside scikit-learn, given as the
    coverage evaluator. *)
Definition boosted : Sim.estimator :=
  {| Sim.type_of := "<class 'catboost.core.CatBoostClassifier'>";
     Sim.path := []; Sim.ccp_alpha := 0; Sim.fitted := None |}.

Definition custom_start : @world Sim.libraries :=
  {| self := @__init__ Sim.libraries Sim.predictor (1 # 10) false false
               (@Estimator Sim.libraries boosted) true true;
     np_random := 0%Z |}.

Definition custom_fitted_world : @world Sim.libraries :=
  snd (@fit Sim.libraries Sim.X_calib Sim.y_calib 1250 650 (1 # 5) tt
         custom_start).

(** The same libraries on a machine with a single core. *)
Definition single_core : Libraries := {|
  Model := Sim.estimator;
  kwargs := unit;
  rng := Z;
  type_str := Sim.type_of;
  deepcopy := fun m => m;
  clone := fun m => Ok (Sim.unfitted m);
  set_params := fun m _ => Ok m;
  set_ccp_alpha := Sim.with_ccp;
  est_fit := Sim.fit_on;
  est_predict := Sim.classes;
  est_predict_proba := Sim.proba;
  cost_complexity_pruning_path := Sim.pruning_path;
  gridsearch := Sim.fit_on;
  grid_search := Sim.no_grid_search;
  move_to_cpu := fun m => Ok m;
  DecisionTreeClassifier := fun _ _ =>
    {| Sim.type_of := Sim.tree_type; Sim.path := [0; 1 # 10; 1 # 4];
       Sim.ccp_alpha := 0; Sim.fitted := None |};
  RandomForestClassifier := fun _ =>
    Ok {| Sim.type_of := Sim.forest_type; Sim.path := []; Sim.ccp_alpha := 0;
          Sim.fitted := None |};
  LogisticGAM :=
    {| Sim.type_of := Sim.gam_type; Sim.path := []; Sim.ccp_alpha := 0;
       Sim.fitted := None |};
  train_test_split := Sim.split;
  brier_score_loss := Sim.brier;
  np_random_seed := Sim.seed;
  binom_rvs := Sim.binom;
  np_random_randint := Sim.randint;
  norm_ppf := Sim.ppf;
  np_quantile := Sim.quantile;
  cpu_count := 1;
  worker_rng := 0%Z;
  randint_range := Sim.randint_in_range;
  norm_ppf_nonneg := Sim.ppf_sign
|}.

Definition cart_single_core : @Valid_pred_sets single_core :=
  self (snd (@fit single_core Sim.X_calib Sim.y_calib 1250 650 (1 # 5) tt
               {| self := @__init__ single_core Sim.predictor (1 # 10) false
                            false (@Tag single_core "CART") true true;
                  np_random := 0%Z |})).

(** An analysis of the band of the fitted linear adapter. *)
Definition quantile_analysis : @Valid_pred_sets Sim.libraries :=
  @__init__ Sim.libraries (LinearQuantileRegression.as_conf SimQ.linear_fitted)
    (1 # 20) false false (@Tag Sim.libraries "CART") true true.

(** ** Notions the properties are stated with *)

(** A tag that is none of the families [_init_coverage_evaluator] builds. *)
Definition unsupported (tag : string) : Prop :=
  tag <> "CART"%string /\ tag <> "RF"%string /\ tag <> "GAM"%string.

(** The positive-class probabilities read off a probability table. *)
Definition positive_of (table : matrix) : ndarray :=
  match table with
  | [_] :: _ => Arr2 table
  | _ => Arr1 (map (fun row => nth 1 row 0) table)
  end.


(** The Bessel-corrected sample variance of a list of numbers:
    [sum((t - mean(t))^2) / (B - 1)] with [B] the number of entries. *)
Definition sample_variance (qs : list Q) : Q :=
  let mean := Qsum qs / Q_of_nat (length qs) in
  Qsum (map (fun t => (t - mean) ^ 2) qs) / (Q_of_nat (length qs) - 1).

(** The evaluator of the family of the analysis, refitted on [rows] and
    [labels] and evaluated on [fold]: a clone of the stored model for the
    RF tag and for scikit-learn models, a grid-searched GAM for the GAM
    tag, a copy of the stored model (made by [copy]) otherwise. *)
Definition refit_on {L : Libraries} (copy : Model -> result Model)
    (ce : cov_eval) (m : Model) (rows : matrix) (labels : vector)
    (fold : matrix) : py rng ndarray :=
  if sklearn_branch ce m then
    c <- lift (clone m) ;;
    fitted <- est_fit c rows labels ;;
    table <- lift (est_predict_proba fitted fold) ;;
    lift (positive_class table)
  else if is_tag ce "GAM" then
    searched <- grid_search LogisticGAM rows labels ;;
    fitted <- est_fit searched rows labels ;;
    lift (est_predict_proba fitted fold)
  else
    c <- lift (copy m) ;;
    fitted <- est_fit c rows labels ;;
    pred <- lift (est_predict fitted fold) ;;
    ret (flatten pred).

(** Steps run one after the other, each from the state the previous one
    left, with the list of their results. *)
Inductive chain {S A : Type} (step : S -> A -> S -> Prop)
  : S -> list A -> S -> Prop :=
| chain_nil : forall g, chain step g [] g
| chain_cons : forall g a g1 l g2,
    step g a g1 -> chain step g1 l g2 -> chain step g (a :: l) g2.

(** One bootstrap repetition on the training fold [X], [w] and the
    held-out fold [Xt]: [B] row numbers of [X] are drawn, the rows of [X]
    and [w] at these numbers are the resample, and the statistic is that
    of the evaluator refitted on the resample and evaluated on [Xt]. *)
Definition bootstrap_repetition {L : Libraries} (s : Valid_pred_sets)
    (m : Model) (X : matrix) (w : vector) (Xt : matrix) (B : nat)
    (g : rng) (t : stat) (g' : rng) : Prop :=
  exists new_indexes g1 new_X_train new_w_train new_r,
    np_random_randint (Z.of_nat (length X)) B g = (Ok new_indexes, g1) /\
    length new_indexes = B /\
    Forall (fun i => (0 <= i < Z.of_nat (length X))%Z) new_indexes /\
    take X new_indexes = Ok new_X_train /\
    take w new_indexes = Ok new_w_train /\
    length new_X_train = B /\ length new_w_train = B /\
    (forall k i, nth_error new_indexes k = Some i ->
       nth_error new_X_train k = nth_error X (Z.to_nat i) /\
       nth_error new_w_train k = nth_error w (Z.to_nat i)) /\
    refit_on (fun c => Ok (deepcopy c)) (coverage_evaluator s) m
      new_X_train new_w_train Xt g1 = (Ok new_r, g') /\
    t = mean_abs_dev new_r (alpha s).

(** Two states of an analysis with the same constructor settings. *)
Definition same_settings {L : Libraries} (s s' : Valid_pred_sets) : Prop :=
  conf s' = conf s /\ alpha s' = alpha s /\ nc s' = nc s /\
  islcp s' = islcp s /\ prune s' = prune s /\ split_train s' = split_train s.

(** Unfolding of the monad, and case analysis on the innermost
    scrutinee. *)
Ltac run :=
  unfold bind, lift, ret, raise, with_rng, get_self, update; simpl.

Ltac step :=
  match goal with
  | |- context [match ?x with _ => _ end] =>
      lazymatch x with
      | context [match _ with _ => _ end] => fail
      | _ => destruct x eqn:?; simpl
      end
  end.

(** * Properties *)

Section Properties.

Context {L : Libraries}.

(** ** Generic facts about loops and results *)

Lemma rmap_length {A B} (f : A -> result B) (xs : list A) (ys : list B) :
  rmap f xs = Ok ys -> length ys = length xs.
Proof.
  revert ys. induction xs as [|x xs IH]; simpl; intros ys H.
  - now inversion H.
  - destruct (f x) as [b|e]; simpl in H; [|discriminate].
    destruct (rmap f xs) as [bs|e]; simpl in H; [|discriminate].
    inversion H; subst. simpl. f_equal. now apply IH.
Qed.

Lemma rmap_nth {A B} (f : A -> result B) (xs : list A) (ys : list B) :
  rmap f xs = Ok ys ->
  forall k x, nth_error xs k = Some x ->
  exists y, nth_error ys k = Some y /\ f x = Ok y.
Proof.
  revert ys. induction xs as [|x0 xs IH]; simpl; intros ys H k x Hk.
  - destruct k; discriminate.
  - destruct (f x0) as [b|e] eqn:Hb; simpl in H; [|discriminate].
    destruct (rmap f xs) as [bs|e]; simpl in H; [|discriminate].
    inversion H; subst. destruct k as [|k]; simpl in *.
    + inversion Hk; subst. eauto.
    + eapply IH; eauto.
Qed.

Lemma rmap_total {A B} (f : A -> result B) (xs : list A) :
  Forall (fun x => exists y, f x = Ok y) xs -> exists ys, rmap f xs = Ok ys.
Proof.
  induction 1 as [|x xs [y Hy] _ [ys IH]]; simpl.
  - eauto.
  - rewrite Hy, IH. simpl. eauto.
Qed.

Lemma for_each_length {S A B} (body : A -> py S B) (xs : list A) :
  forall s ys s', for_each xs body s = (Ok ys, s') -> length ys = length xs.
Proof.
  induction xs as [|x xs IH]; simpl; intros s ys s' H.
  - inversion H. reflexivity.
  - unfold bind in H. destruct (body x s) as [[b|e] s1]; [|discriminate].
    destruct (for_each xs body s1) as [[bs|e] s2] eqn:Hrest; [|discriminate].
    inversion H; subst. simpl. f_equal. eapply IH; eauto.
Qed.

Lemma for_range_length {S B} (body : nat -> py S B) (n : nat) s ys s' :
  for_range n body s = (Ok ys, s') -> length ys = n.
Proof.
  unfold for_range. intros H. apply for_each_length in H.
  now rewrite length_seq in H.
Qed.

(** ** The coverage indicator *)

Lemma index2_total (preds : matrix) (i j : nat) :
  (i < length preds)%nat ->
  Forall (fun row => (j < length row)%nat) preds ->
  exists x, index2 preds i j = Ok x.
Proof.
  intros Hi Hrows. unfold index2.
  destruct (nth_error preds i) as [row|] eqn:Hrow.
  - assert (Hj : (j < length row)%nat).
    { rewrite Forall_forall in Hrows. apply Hrows. eapply nth_error_In; eauto. }
    apply nth_error_Some in Hj. destruct (nth_error row j); [eauto|congruence].
  - apply nth_error_None in Hrow. lia.
Qed.

Lemma index2_raises (preds : matrix) (i j : nat) (e : exn) :
  index2 preds i j = Raise e -> e = IndexError.
Proof.
  unfold index2. destruct (nth_error preds i) as [row|];
    [destruct (nth_error row j)|]; congruence.
Qed.

Lemma covered_raises (preds : matrix) (i : nat) (y_i : Q) (e : exn) :
  covered preds i y_i = Raise e -> e = IndexError.
Proof.
  unfold covered.
  destruct (index2 preds i 0) as [lower|e0] eqn:H0; simpl.
  - destruct (Qle_bool lower y_i); [|discriminate].
    destruct (index2 preds i 1) as [upper|e1] eqn:H1; simpl; [discriminate|].
    intros [= <-]. eapply index2_raises; eauto.
  - intros [= <-]. eapply index2_raises; eauto.
Qed.

Lemma covered_value (preds : matrix) (i : nat) (y_i lower upper : Q) :
  index2 preds i 0 = Ok lower ->
  index2 preds i 1 = Ok upper ->
  exists w_i, covered preds i y_i = Ok w_i /\
    (w_i = 0 \/ w_i = 1) /\
    (lower <= y_i /\ y_i <= upper -> w_i = 1) /\
    (~ (lower <= y_i /\ y_i <= upper) -> w_i = 0).
Proof.
  intros H0 H1. unfold covered. rewrite H0. simpl.
  destruct (Qle_bool lower y_i) eqn:Hl.
  - rewrite H1. simpl. destruct (Qle_bool y_i upper) eqn:Hu.
    + eexists; repeat split; eauto. intros Hn. exfalso. apply Hn.
      split; now apply Qle_bool_iff.
    + eexists; repeat split; eauto. intros [_ Hc].
      apply Qle_bool_iff in Hc. congruence.
  - eexists; repeat split; eauto. intros [Hc _].
    apply Qle_bool_iff in Hc. congruence.
Qed.

Lemma label_from_spec (preds : matrix) :
  Forall (fun row => (1 < length row)%nat) preds ->
  forall (y : vector) (i : nat),
  (i + length y <= length preds)%nat ->
  exists w, label_from preds i y = Ok w /\ length w = length y /\
    (forall k y_k lower upper,
        nth_error y k = Some y_k ->
        index2 preds (i + k) 0 = Ok lower ->
        index2 preds (i + k) 1 = Ok upper ->
        exists w_k, nth_error w k = Some w_k /\
          (lower <= y_k /\ y_k <= upper -> w_k = 1) /\
          (~ (lower <= y_k /\ y_k <= upper) -> w_k = 0)) /\
    Forall (fun w_k => w_k = 0 \/ w_k = 1) w.
Proof.
  intros Hrows. induction y as [|y_i y IH]; intros i Hlen; simpl in *.
  - exists []. repeat split; auto. intros [|k]; discriminate.
  - destruct (index2_total preds i 0) as [lower Hlo]; [lia| |].
    { eapply Forall_impl; [|exact Hrows]. simpl. intros; lia. }
    destruct (index2_total preds i 1) as [upper Hup]; [lia|exact Hrows|].
    destruct (covered_value preds i y_i lower upper Hlo Hup) as [w_i [Hc [H01 [Hin Hout]]]].
    destruct (IH (S i)) as [w [Hw [Hl [Hval Hall]]]]; [lia|].
    rewrite Hc, Hw. simpl. exists (w_i :: w). repeat split; simpl; auto.
    intros [|k] y_k lo up Hk H0 H1; simpl in *.
    + inversion Hk; subst. rewrite Nat.add_0_r in H0, H1.
      rewrite Hlo in H0. rewrite Hup in H1. inversion H0; inversion H1; subst.
      exists w_i. auto.
    + replace (i + S k)%nat with (S i + k)%nat in H0, H1 by lia.
      eapply Hval; eauto.
Qed.

Lemma label_from_short (preds : matrix) (y : vector) :
  forall i, (i <= length preds < i + length y)%nat ->
  label_from preds i y = Raise IndexError.
Proof.
  induction y as [|y_i y IH]; intros i Hlen; simpl in *; [lia|].
  destruct (covered preds i y_i) as [w_i|e] eqn:Hc; simpl.
  - assert (Hi : (i < length preds)%nat).
    { destruct (Nat.eq_dec i (length preds)) as [->|]; [|lia].
      unfold covered, index2 in Hc.
      replace (nth_error preds (length preds)) with (@None (list Q)) in Hc.
      - discriminate.
      - symmetry. apply nth_error_None. lia. }
    rewrite IH by lia. reflexivity.
  - f_equal. eapply covered_raises; eauto.
Qed.

(** C7.  For a target vector and an interval matrix that has a row
    [lower, upper] for each target, the labelling loop of [fit] returns
    the indicator [w]: [w_i] is 1 when [lower_i <= y_i <= upper_i] (both
    bounds inclusive) and 0 otherwise, so every entry is 0 or 1. *)
Theorem label_is_coverage_indicator (y : vector) (preds : matrix) :
  (length y <= length preds)%nat ->
  Forall (fun row => (1 < length row)%nat) preds ->
  exists w, label y preds = Ok w /\ length w = length y /\
    (forall i y_i lower upper,
        nth_error y i = Some y_i ->
        index2 preds i 0 = Ok lower ->
        index2 preds i 1 = Ok upper ->
        exists w_i, nth_error w i = Some w_i /\
          (lower <= y_i /\ y_i <= upper -> w_i = 1) /\
          (~ (lower <= y_i /\ y_i <= upper) -> w_i = 0)) /\
    Forall (fun w_i => w_i = 0 \/ w_i = 1) w.
Proof.
  intros Hlen Hrows. unfold label.
  exact (label_from_spec preds Hrows y 0%nat Hlen).
Qed.

(** C4 (as amended).  The code has no dedicated shape check.  When the
    interval matrix has fewer rows than the target vector, [fit] fails at
    labelling time with an [IndexError], before any split or model fit:
    the object is left as it was and the generator has only been
    reseeded.  When the target vector is not longer than the interval
    matrix, labelling does not fail and yields one label per target. *)
Theorem fit_length_mismatch (w0 : world) (X_calib : matrix) (y_calib : vector)
    (random_seed prune_seed : Z) (test_size : Q) (kw : kwargs)
    (preds : matrix) (g1 : rng) :
  predict_intervals (self w0) X_calib = Ok preds ->
  np_random_seed random_seed (np_random w0) = (Ok tt, g1) ->
  ((length preds < length y_calib)%nat ->
   fit X_calib y_calib random_seed prune_seed test_size kw w0
   = (Raise IndexError, {| self := self w0; np_random := g1 |})) /\
  ((length y_calib <= length preds)%nat ->
   Forall (fun row => (1 < length row)%nat) preds ->
   exists w, label y_calib preds = Ok w /\ length w = length y_calib).
Proof.
  intros Hpreds Hseed. split.
  - intros Hshort. unfold fit. run. rewrite Hpreds, Hseed. simpl.
    unfold label. rewrite label_from_short by lia. reflexivity.
  - intros Hlen Hrows.
    destruct (label_from_spec preds Hrows y_calib 0%nat Hlen)
      as [w [Hw [Hl _]]].
    unfold label. eauto.
Qed.

(** ** Evaluator families *)

Lemma is_tag_other (tag t : string) : tag <> t -> is_tag (Tag tag) t = false.
Proof. intros H. simpl. now apply String.eqb_neq. Qed.

Lemma init_unsupported (w : world) (tag : string) (random_seed prune_seed : Z)
    (kw : kwargs) :
  coverage_evaluator (self w) = Tag tag ->
  unsupported tag ->
  _init_coverage_evaluator random_seed prune_seed kw w
  = (Raise (AttributeError "set_params"), w).
Proof.
  intros Htag [Hc [Hr Hg]]. unfold _init_coverage_evaluator. run.
  rewrite Htag.
  rewrite (is_tag_other tag "CART" Hc), (is_tag_other tag "RF" Hr),
    (is_tag_other tag "GAM" Hg).
  reflexivity.
Qed.

Lemma predict_unfitted (s : Valid_pred_sets) (tag : string) (X : matrix) :
  coverage_evaluator s = Tag tag ->
  tag <> "RF"%string ->
  model s = None ->
  predict s X = Raise (AttributeError "model").
Proof.
  intros Htag Hr Hm. unfold predict.
  rewrite Htag, (is_tag_other tag "RF" Hr), Hm. reflexivity.
Qed.

(** [predict] has no final [else]: with a tag other than RF, GAM and
    nnet, or with an estimator object, and a model that is not a
    scikit-learn one, it falls off its end and returns [None]. *)
Lemma predict_falls_through (s : Valid_pred_sets) (m : Model) (X : matrix) :
  model s = Some m ->
  contains "sklearn" (type_str m) = false ->
  is_tag (coverage_evaluator s) "RF" = false ->
  is_tag (coverage_evaluator s) "GAM" = false ->
  is_tag (coverage_evaluator s) "nnet" = false ->
  predict s X = Ok None.
Proof.
  intros Hm Hsk Hrf Hgam Hnn. unfold predict.
  rewrite Hrf, Hm. simpl. rewrite Hsk, Hgam, Hnn. reflexivity.
Qed.

(** C3 (as amended).  With a family tag other than CART, RF and GAM and
    no estimator object, [fit] never succeeds; the evaluator
    initialisation it ends in raises the [AttributeError] of calling
    [set_params] on the tag (there is no dedicated error for an unknown
    family) and stores nothing, so that on an analysis without a model
    [predict] raises as well instead of returning nothing. *)
Theorem unsupported_tag_fails (w0 : world) (tag : string)
    (X_calib : matrix) (y_calib : vector) (random_seed prune_seed : Z)
    (test_size : Q) (kw : kwargs) :
  coverage_evaluator (self w0) = Tag tag ->
  unsupported tag ->
  model (self w0) = None ->
  (forall w, coverage_evaluator (self w) = Tag tag ->
     _init_coverage_evaluator random_seed prune_seed kw w
     = (Raise (AttributeError "set_params"), w)) /\
  (forall r w1,
     fit X_calib y_calib random_seed prune_seed test_size kw w0 = (r, w1) ->
     is_ok r = false /\
     model (self w1) = None /\
     forall X, predict (self w1) X = Raise (AttributeError "model")).
Proof.
  intros Htag Hun Hm. split.
  - intros w Hw. apply init_unsupported with (tag := tag); assumption.
  - intros r w1. unfold fit. run.
    assert (Hpred : forall w, coverage_evaluator (self w) = Tag tag ->
              model (self w) = None ->
              forall X, predict (self w) X = Raise (AttributeError "model")).
    { intros w Hw Hmw X. destruct Hun as [_ [Hr _]].
      now apply predict_unfitted with (tag := tag). }
    destruct (predict_intervals (self w0) X_calib) as [preds|e].
    2:{ intros [= <- <-]. destruct w0; auto. }
    destruct (np_random_seed random_seed (np_random w0)) as [[[]|e] g1].
    2:{ intros [= <- <-]. simpl. auto. }
    destruct (label y_calib preds) as [w|e].
    2:{ intros [= <- <-]. simpl. auto. }
    destruct (split_train (self w0)); simpl.
    + destruct (train_test_split X_calib w test_size None g1)
        as [[[[[Xtr Xte] wtr] wte]|e] g2]; simpl.
      2:{ intros [= <- <-]. simpl. auto. }
      rewrite init_unsupported with (tag := tag) by (simpl; auto).
      intros [= <- <-]. simpl. repeat split; auto.
      intros X. apply (Hpred {| self := _; np_random := g2 |}); simpl; auto.
    + rewrite init_unsupported with (tag := tag) by (simpl; auto).
      intros [= <- <-]. simpl. repeat split; auto.
      intros X. apply (Hpred {| self := _; np_random := g1 |}); simpl; auto.
Qed.

(** ** The shape branch on probability tables *)

Lemma column_two (table : matrix) :
  Forall (fun row => length row = 2%nat) table ->
  column 1 (Arr2 table) = Ok (Arr1 (map (fun row => nth 1 row 0) table)).
Proof.
  intros H. unfold column.
  assert (Hm : rmap (fun row => match nth_error row 1 with
                                | Some x => Ok x
                                | None => Raise IndexError
                                end) table
               = Ok (map (fun row => nth 1 row 0) table)).
  { induction H as [|row table Hrow _ IH]; [reflexivity|].
    cbn [rmap]. rewrite IH.
    destruct row as [|a [|b [|c row]]]; try discriminate. reflexivity. }
  rewrite Hm. reflexivity.
Qed.

Lemma positive_class_table (table : matrix) :
  table <> [] ->
  Forall (fun row => length row = 1%nat) table \/
  Forall (fun row => length row = 2%nat) table ->
  positive_class (Arr2 table) = Ok (positive_of table).
Proof.
  intros Hne Hshape. destruct table as [|row table]; [congruence|].
  unfold positive_class. simpl len_first. unfold rbind.
  destruct Hshape as [H|H]; pose proof H as Hall; inversion H as [|? ? Hrow _]; subst.
  - rewrite Hrow. simpl. destruct row as [|a [|b row]]; try discriminate.
    reflexivity.
  - rewrite Hrow. simpl Nat.eqb. cbv iota. rewrite column_two by assumption.
    destruct row as [|a [|b [|c row]]]; try discriminate. reflexivity.
Qed.

(** C9.  In the branch taken for an RF tag or a scikit-learn model, a
    non-empty probability table with one column is returned as it is,
    and of a table with two columns the column at index 1 is returned:
    by [predict], by the sequential refit [retrain] and by the worker's
    refit [retrain_par].  The one-column table raises no error. *)
Theorem probability_table_shape (table : matrix) :
  table <> [] ->
  Forall (fun row => length row = 1%nat) table \/
  Forall (fun row => length row = 2%nat) table ->
  (Forall (fun row => length row = 1%nat) table ->
   positive_of table = Arr2 table) /\
  (Forall (fun row => length row = 2%nat) table ->
   positive_of table = Arr1 (map (fun row => nth 1 row 0) table)) /\
  (forall s m X,
     model s = Some m ->
     sklearn_branch (coverage_evaluator s) m = true ->
     est_predict_proba m X = Ok (Arr2 table) ->
     predict s X = Ok (Some (positive_of table))) /\
  (forall s m c model_temp X_train new_w X_arg X g g1,
     model s = Some m ->
     sklearn_branch (coverage_evaluator s) m = true ->
     clone m = Ok c ->
     est_fit c X_train new_w g = (Ok model_temp, g1) ->
     X_test s = Some X ->
     est_predict_proba model_temp X = Ok (Arr2 table) ->
     retrain s X_train new_w X_arg g = (Ok (positive_of table), g1)) /\
  (forall ce m c model_temp X_train new_w X g g1,
     sklearn_branch ce m = true ->
     clone m = Ok c ->
     est_fit c X_train new_w g = (Ok model_temp, g1) ->
     est_predict_proba model_temp X = Ok (Arr2 table) ->
     retrain_par ce m X_train new_w X g = (Ok (positive_of table), g1)).
Proof.
  intros Hne Hshape.
  pose proof (positive_class_table table Hne Hshape) as Hpos.
  assert (Hbranch : forall s m, model s = Some m ->
            sklearn_branch (coverage_evaluator s) m = true ->
            (if is_tag (coverage_evaluator s) "RF" then Ok true
             else rbind (attr "model" (model s))
                    (fun m => Ok (contains "sklearn" (type_str m)))) = Ok true).
  { intros s m Hm Hb. unfold sklearn_branch in Hb. rewrite Hm. simpl.
    destruct (is_tag (coverage_evaluator s) "RF"); [reflexivity|].
    simpl in Hb. now rewrite Hb. }
  split; [|split; [|split; [|split]]].
  - intros H. destruct table as [|row table]; [congruence|].
    inversion H as [|? ? Hrow _]; subst.
    destruct row as [|a [|b row]]; try discriminate. reflexivity.
  - intros H. destruct table as [|row table]; [congruence|].
    inversion H as [|? ? Hrow _]; subst.
    destruct row as [|a [|b [|c row]]]; try discriminate. reflexivity.
  - intros s m X Hm Hb Hp. unfold predict.
    rewrite (Hbranch s m Hm Hb). simpl. rewrite Hm. simpl.
    rewrite Hp. simpl. rewrite Hpos. reflexivity.
  - intros s m c model_temp X_train new_w X_arg X g g1 Hm Hb Hc Hf HX Hp.
    unfold retrain. run. rewrite (Hbranch s m Hm Hb).
    rewrite Hm. simpl. rewrite Hc, Hf, HX. simpl. rewrite Hp, Hpos. reflexivity.
  - intros ce m c model_temp X_train new_w X g g1 Hb Hc Hf Hp.
    unfold retrain_par. run. rewrite Hb, Hc, Hf, Hp, Hpos. reflexivity.
Qed.

(** ** Pruning *)





Lemma nth_error_combine {A B} (xs : list A) (ys : list B) :
  length xs = length ys ->
  forall i x y,
  nth_error (combine xs ys) i = Some (x, y) <->
  nth_error xs i = Some x /\ nth_error ys i = Some y.
Proof.
  revert ys. induction xs as [|x0 xs IH]; intros [|y0 ys] Hlen i x y;
    simpl in Hlen; try discriminate.
  - destruct i; simpl; (split; [discriminate | intros [H _]; discriminate]).
  - destruct i as [|i]; simpl.
    + split; [intros [= -> ->]; auto | intros [[= ->] [= ->]]; reflexivity].
    + apply IH. lia.
Qed.




(** ** Bootstrap resampling *)

Lemma np_index_in_range {A} (a : list A) (i : Z) :
  (0 <= i < Z.of_nat (length a))%Z ->
  exists x, np_index a i = Ok x /\ nth_error a (Z.to_nat i) = Some x.
Proof.
  intros Hi. unfold np_index.
  destruct (Z.ltb_spec i 0) as [Hneg|_]; [lia|].
  destruct (Z.ltb_spec i 0) as [Hneg|_]; [lia|].
  destruct (nth_error a (Z.to_nat i)) as [x|] eqn:Hx; [eauto|].
  apply nth_error_None in Hx. lia.
Qed.

Lemma take_in_range {A} (a : list A) (idx : list Z) :
  Forall (fun i => (0 <= i < Z.of_nat (length a))%Z) idx ->
  exists out, take a idx = Ok out /\ length out = length idx /\
    forall k i, nth_error idx k = Some i ->
                nth_error out k = nth_error a (Z.to_nat i).
Proof.
  intros Hidx. unfold take.
  destruct (rmap_total (np_index a) idx) as [out Hout].
  { eapply Forall_impl; [|exact Hidx]. simpl. intros i Hi.
    destruct (np_index_in_range a i Hi) as [x [Hx _]]. eauto. }
  exists out. split; [assumption|]. split; [eapply rmap_length; eauto|].
  intros k i Hk.
  destruct (rmap_nth _ _ _ Hout k i Hk) as [x [Hxk Hx]].
  rewrite Forall_forall in Hidx.
  destruct (np_index_in_range a i (Hidx i (nth_error_In _ _ Hk))) as [x' [Hx' Hn]].
  congruence.
Qed.

Lemma retrain_refit_on (s : Valid_pred_sets) (m : Model) (rows : matrix)
    (labels : vector) (Xt : matrix) (g : rng) :
  model s = Some m ->
  X_test s = Some Xt ->
  retrain s rows labels Xt g
  = refit_on (fun c => Ok (deepcopy c)) (coverage_evaluator s) m rows labels
      Xt g.
Proof.
  intros Hm HXt. unfold retrain, refit_on, sklearn_branch.
  unfold bind, lift, ret. rewrite Hm, HXt. simpl.
  destruct (is_tag (coverage_evaluator s) "RF"); simpl; [reflexivity|].
  destruct (contains "sklearn" (type_str m)); [reflexivity|].
  destruct (is_tag (coverage_evaluator s) "GAM"); reflexivity.
Qed.

Lemma retrain_par_refit_on (ce : cov_eval) (m : Model) (rows : matrix)
    (labels : vector) (Xt : matrix) (g : rng) :
  retrain_par ce m rows labels Xt g
  = refit_on (fun c => move_to_cpu (deepcopy c)) ce m rows labels Xt g.
Proof. reflexivity. Qed.

Lemma for_each_chain {S A B : Type} (body : py S B) (xs : list A) :
  forall g l g',
  for_each xs (fun _ => body) g = (Ok l, g') ->
  chain (fun g0 b g1 => body g0 = (Ok b, g1)) g l g'.
Proof.
  induction xs as [|x xs IH]; simpl; intros g l g' H.
  - inversion H. constructor.
  - unfold bind in H. destruct (body g) as [[b|e] g1] eqn:Hb; [|discriminate].
    destruct (for_each xs (fun _ => body) g1) as [[bs|e] g2] eqn:Hrest;
      [|discriminate].
    inversion H; subst. econstructor; [exact Hb | now apply IH].
Qed.

Lemma chain_impl {S A : Type} (step step' : S -> A -> S -> Prop) :
  (forall g a g', step g a g' -> step' g a g') ->
  forall g l g', chain step g l g' -> chain step' g l g'.
Proof.
  intros Himp g l g' H. induction H; econstructor; eauto.
Qed.

(** What one iteration of the sequential loop does, once its index array
    is drawn. *)
Lemma bootstrap_body_draw (s : Valid_pred_sets) (B : nat) (m : Model)
    (X : matrix) (w : vector) (Xt : matrix) (g g1 : rng)
    (new_indexes : list Z) :
  model s = Some m -> X_train s = Some X -> w_train s = Some w ->
  X_test s = Some Xt -> length w = length X ->
  np_random_randint (Z.of_nat (length X)) B g = (Ok new_indexes, g1) ->
  exists new_X_train new_w_train,
    take X new_indexes = Ok new_X_train /\
    take w new_indexes = Ok new_w_train /\
    length new_indexes = B /\
    length new_X_train = B /\
    length new_w_train = B /\
    Forall (fun i => (0 <= i < Z.of_nat (length X))%Z) new_indexes /\
    (forall k i, nth_error new_indexes k = Some i ->
       nth_error new_X_train k = nth_error X (Z.to_nat i) /\
       nth_error new_w_train k = nth_error w (Z.to_nat i)) /\
    bootstrap_body s B g
    = (new_r <- refit_on (fun c => Ok (deepcopy c)) (coverage_evaluator s) m
                  new_X_train new_w_train Xt ;;
       ret (mean_abs_dev new_r (alpha s))) g1.
Proof.
  intros Hm HX Hw HXt Hlen Hdraw.
  destruct (randint_range _ _ _ _ _ Hdraw) as [HB Hrange].
  destruct (take_in_range X new_indexes Hrange) as [nX [HnX [HlX HvX]]].
  assert (Hrange' : Forall (fun i => (0 <= i < Z.of_nat (length w))%Z) new_indexes)
    by now rewrite Hlen.
  destruct (take_in_range w new_indexes Hrange') as [nw [Hnw [Hlw Hvw]]].
  exists nX, nw. repeat split; try congruence; try assumption.
  - now apply HvX.
  - now apply Hvw.
  - unfold bootstrap_body. unfold bind at 1 2 3 4 5 6. unfold lift.
    rewrite HX. simpl. rewrite Hdraw, HnX, Hw. simpl. rewrite Hnw, HXt.
    cbn [attr]. unfold bind. rewrite (retrain_refit_on s m nX nw Xt g1 Hm HXt).
    reflexivity.
Qed.

Lemma bootstrap_body_repetition (s : Valid_pred_sets) (B : nat) (m : Model)
    (X : matrix) (w : vector) (Xt : matrix) (g g' : rng) (t : stat) :
  model s = Some m -> X_train s = Some X -> w_train s = Some w ->
  X_test s = Some Xt -> length w = length X ->
  bootstrap_body s B g = (Ok t, g') ->
  bootstrap_repetition s m X w Xt B g t g'.
Proof.
  intros Hm HX Hw HXt Hlen Hrun.
  destruct (np_random_randint (Z.of_nat (length X)) B g) as [[idx|e] g1]
    eqn:Hdraw.
  - destruct (bootstrap_body_draw s B m X w Xt g g1 idx Hm HX Hw HXt Hlen Hdraw)
      as [nX [nw [HnX [Hnw [HB [HlX [Hlw [Hrange [Hrows Hbody]]]]]]]]].
    rewrite Hbody in Hrun. unfold bind, ret in Hrun.
    destruct (refit_on (fun c => Ok (deepcopy c)) (coverage_evaluator s) m
                nX nw Xt g1) as [[new_r|e] g2] eqn:Hr; [|discriminate].
    injection Hrun as <- <-.
    exists idx, g1, nX, nw, new_r. repeat split; auto; now apply Hrows.
  - exfalso. unfold bootstrap_body in Hrun. unfold bind at 1 2, lift in Hrun.
    rewrite HX in Hrun. simpl in Hrun. rewrite Hdraw in Hrun. discriminate.
Qed.

(** C6.  In every repetition of [bootstrap_ci] the index array has
    exactly [B] entries, each a row number of the training fold
    (repetitions allowed); the resampled features and labels are the rows
    at these indices, so the resample has [B] rows whatever the size of
    the training fold; and the statistic of the repetition is that of the
    evaluator refitted on the resample and evaluated on the held-out
    fold [X_test], the fold on which [bootstrap_ci] evaluates the
    original fit for [t_obs].  The first part states this for one
    iteration of the sequential loop and for the worker [bootstrap_par],
    whatever their outcome; the second for the [B] repetitions of a call
    of [bootstrap_ci] that returns. *)
Theorem bootstrap_resample_size (s : Valid_pred_sets) (B : nat) (m : Model)
    (X : matrix) (w : vector) (Xt : matrix) :
  model s = Some m ->
  X_train s = Some X ->
  w_train s = Some w ->
  X_test s = Some Xt ->
  length w = length X ->
  (forall g new_indexes g1,
     np_random_randint (Z.of_nat (length X)) B g = (Ok new_indexes, g1) ->
     exists new_X_train new_w_train,
       take X new_indexes = Ok new_X_train /\
       take w new_indexes = Ok new_w_train /\
       length new_indexes = B /\
       length new_X_train = B /\
       length new_w_train = B /\
       (forall k i, nth_error new_indexes k = Some i ->
          (0 <= i < Z.of_nat (length X))%Z /\
          nth_error new_X_train k = nth_error X (Z.to_nat i) /\
          nth_error new_w_train k = nth_error w (Z.to_nat i)) /\
       bootstrap_body s B g
       = (new_r <- refit_on (fun c => Ok (deepcopy c)) (coverage_evaluator s)
                     m new_X_train new_w_train Xt ;;
          ret (mean_abs_dev new_r (alpha s))) g1 /\
       (forall seed g0,
          np_random_seed seed g0 = (Ok tt, g) ->
          bootstrap_par B (alpha s) (coverage_evaluator s) m X w Xt seed g0
          = (new_r <- refit_on (fun c => move_to_cpu (deepcopy c))
                        (coverage_evaluator s) m new_X_train new_w_train Xt ;;
             ret (mean_abs_dev new_r (alpha s))) g1)) /\
  (forall sig_b random_seed g0 res g',
     bootstrap_ci s B sig_b random_seed false g0 = (Ok res, g') ->
     exists r g1 t_vec,
       predict s Xt = Ok (Some r) /\
       t_obs res = mean_abs_dev r (alpha s) /\
       np_random_seed random_seed g0 = (Ok tt, g1) /\
       length t_vec = B /\
       chain (bootstrap_repetition s m X w Xt B) g1 t_vec g' /\
       np_quantile t_vec (sig_b / 2) = Ok (fst (Percentile_interval res)) /\
       np_quantile t_vec (1 - sig_b / 2) = Ok (snd (Percentile_interval res))).
Proof.
  intros Hm HX Hw HXt Hlen. split.
  - intros g new_indexes g1 Hdraw.
    destruct (bootstrap_body_draw s B m X w Xt g g1 new_indexes
                Hm HX Hw HXt Hlen Hdraw)
      as [nX [nw [HnX [Hnw [HB [HlX [Hlw [Hrange [Hrows Hbody]]]]]]]]].
    exists nX, nw. repeat split; auto.
    + rewrite Forall_forall in Hrange. apply (Hrange i).
      eapply nth_error_In; eauto.
    + rewrite Forall_forall in Hrange. apply (Hrange i).
      eapply nth_error_In; eauto.
    + now apply Hrows.
    + now apply Hrows.
    + intros seed g0 Hseed. unfold bootstrap_par.
      unfold bind at 1 2 3 4. unfold lift.
      rewrite Hseed, Hdraw, HnX, Hnw. reflexivity.
  - intros sig_b random_seed g0 res g'. unfold bootstrap_ci. run.
    rewrite HXt. simpl.
    destruct (predict s Xt) as [[r|]|e] eqn:Hp; simpl; try discriminate.
    destruct (np_random_seed random_seed g0) as [[[]|e] g1] eqn:Hseed;
      [|discriminate].
    unfold bootstrap_t_vec. cbn [negb].
    destruct (for_range B (fun _ => bootstrap_body s B) g1)
      as [[t_vec|e] g2] eqn:Ht; [|discriminate].
    destruct (bootstrap_se B t_vec) as [epb|e] eqn:He; [|discriminate].
    simpl.
    destruct (np_quantile t_vec (sig_b / 2)) as [lo|e] eqn:Hlo; [|discriminate].
    destruct (np_quantile t_vec (1 - sig_b / 2)) as [hi|e] eqn:Hhi;
      [|discriminate].
    simpl. intros [= <- <-]. cbn [t_obs Percentile_interval fst snd].
    exists r, g1, t_vec. repeat split; auto.
    + eapply for_range_length; eauto.
    + unfold for_range in Ht. apply for_each_chain in Ht.
      eapply chain_impl; [|exact Ht]. cbv beta. intros g a ga Hrun.
      now apply (bootstrap_body_repetition s B m X w Xt g ga a).
Qed.

(** ** The Monte Carlo test *)

Lemma np_greater_pair (t_b : list stat) (a b : stat) :
  length t_b <> 1%nat -> length t_b <> 2%nat ->
  np_greater t_b [a; b] = Raise ValueError.
Proof.
  intros H1 H2. destruct t_b as [|x [|y [|z t]]]; simpl in *; try lia;
    reflexivity.
Qed.

(** With a number of repetitions other than 1 and 2 the comparison of
    [monte_carlo_test] cannot be broadcast. *)
Lemma monte_carlo_test_shape (s : Valid_pred_sets) (B : nat)
    (random_seed : Z) (par : bool) (g : rng) :
  B <> 1%nat -> B <> 2%nat ->
  is_ok (fst (monte_carlo_test s B random_seed par g)) = false.
Proof.
  intros H1 H2. unfold monte_carlo_test. run.
  destruct (compute_dif s) as [t|e]; [|reflexivity].
  destruct (np_random_seed random_seed g) as [[[]|e] g1]; [|reflexivity].
  destruct par; simpl.
  - destruct (Pool (Z.of_nat cpu_count - 1)); [|reflexivity].
    destruct (np_random_randint 100000000 B g1) as [[seeds|e] g2] eqn:Hs;
      [|reflexivity].
    apply randint_range in Hs. destruct Hs as [Hs _].
    destruct (rmap _ seeds) as [tasks|e] eqn:Ht; [|reflexivity].
    apply rmap_length in Ht.
    destruct (rmap (fun task => task) tasks) as [t_b|e] eqn:Hg; [|reflexivity].
    apply rmap_length in Hg.
    rewrite np_greater_pair by congruence. reflexivity.
  - destruct (for_range B (fun _ => monte_carlo_body s) g1)
      as [[t_b|e] g2] eqn:Hl; [|reflexivity].
    apply for_range_length in Hl.
    rewrite np_greater_pair by congruence. reflexivity.
Qed.

(** C1 (defect).  [monte_carlo_test] compares the simulated statistics
    with the pair returned by [compute_dif], not with its first
    component: for every number of repetitions other than 1 and 2 the
    comparison cannot be broadcast and the call never returns, and in a
    sequential run whose simulations all succeed it ends in the
    [ValueError] of that comparison. *)
Theorem monte_carlo_test_compares_with_pair (s : Valid_pred_sets) (B : nat)
    (random_seed : Z) (g : rng) :
  B <> 1%nat -> B <> 2%nat ->
  (forall par, is_ok (fst (monte_carlo_test s B random_seed par g)) = false) /\
  (forall t g1 t_b g2,
     compute_dif s = Ok t ->
     np_random_seed random_seed g = (Ok tt, g1) ->
     for_range B (fun _ => monte_carlo_body s) g1 = (Ok t_b, g2) ->
     monte_carlo_test s B random_seed false g = (Raise ValueError, g2)).
Proof.
  intros H1 H2. split.
  - intros par. now apply monte_carlo_test_shape.
  - intros t g1 t_b g2 Ht Hseed Hloop. unfold monte_carlo_test. run.
    rewrite Ht, Hseed, Hloop.
    apply for_range_length in Hloop.
    rewrite np_greater_pair by congruence. reflexivity.
Qed.

(** ** Sequential and parallel repetitions *)

(** For an RF tag, a scikit-learn model or the GAM tag, the refit of a
    worker is the refit of the sequential loop. *)
Lemma retrain_par_agrees (s : Valid_pred_sets) (m : Model)
    (X_train_arg : matrix) (new_w : vector) (Xt : matrix) (g : rng) :
  model s = Some m ->
  X_test s = Some Xt ->
  sklearn_branch (coverage_evaluator s) m = true \/
  is_tag (coverage_evaluator s) "GAM" = true ->
  retrain_par (coverage_evaluator s) m X_train_arg new_w Xt g
  = retrain s X_train_arg new_w Xt g.
Proof.
  intros Hm HXt Hbranch. unfold retrain_par, retrain, sklearn_branch in *.
  unfold bind, lift, ret. rewrite Hm, HXt. simpl.
  destruct (is_tag (coverage_evaluator s) "RF") eqn:Hrf; simpl in *.
  - reflexivity.
  - destruct (contains "sklearn" (type_str m)) eqn:Hsk.
    + reflexivity.
    + destruct Hbranch as [Hb|Hb]; [discriminate|]. rewrite Hb. reflexivity.
Qed.

(** In those branches a Monte Carlo task computes, from the state its
    seed gives, what an iteration of the sequential loop computes. *)
Lemma monte_carlo_task_agrees (s : Valid_pred_sets) (m : Model) (X : matrix)
    (w : vector) (Xt : matrix) (seed : Z) (g0 g : rng) :
  model s = Some m -> X_train s = Some X -> w_train s = Some w ->
  X_test s = Some Xt ->
  sklearn_branch (coverage_evaluator s) m = true \/
  is_tag (coverage_evaluator s) "GAM" = true ->
  np_random_seed seed g0 = (Ok tt, g) ->
  _retrain_loop_par (coverage_evaluator s) m (alpha s) X w Xt seed g0
  = monte_carlo_body s g.
Proof.
  intros Hm HX Hw HXt Hbranch Hseed. unfold _retrain_loop_par, monte_carlo_body.
  unfold bind, lift, ret. rewrite Hseed, Hw, HX, HXt. simpl.
  destruct (binom_rvs (1 - alpha s) (length w) g) as [[new_w|e] g1];
    [|reflexivity].
  rewrite (retrain_par_agrees s m X new_w Xt g1 Hm HXt Hbranch). reflexivity.
Qed.

Lemma bootstrap_task_raises (s : Valid_pred_sets) (B : nat) (seed : Z)
    (args : list pyval) :
  bootstrap_args s B seed = Ok args ->
  apply_async call_bootstrap_par args = Raise TypeError.
Proof.
  unfold bootstrap_args.
  destruct (model s); [|discriminate].
  destruct (X_train s); [|discriminate].
  destruct (w_train s); [|discriminate].
  destruct (X_test s); [|discriminate].
  simpl. intros [= <-]. reflexivity.
Qed.

Lemma bootstrap_tasks_raise (s : Valid_pred_sets) (B : nat) (seeds : list Z)
    (tasks : list (result stat)) :
  seeds <> [] ->
  rmap (fun seed => args <-! bootstrap_args s B seed ;;
                    Ok (apply_async call_bootstrap_par args)) seeds = Ok tasks ->
  rmap (fun task => task) tasks = Raise TypeError.
Proof.
  destruct seeds as [|seed seeds]; [congruence|]. intros _. simpl.
  destruct (bootstrap_args s B seed) as [args|e] eqn:Hargs; [|discriminate].
  simpl. rewrite (bootstrap_task_raises _ _ _ _ Hargs).
  destruct (rmap _ seeds); [|discriminate].
  simpl. intros [= <-]. reflexivity.
Qed.

Lemma bootstrap_t_vec_parallel (s : Valid_pred_sets) (B : nat) (g : rng) :
  (1 <= B)%nat ->
  is_ok (fst (bootstrap_t_vec s B true g)) = false.
Proof.
  intros HB. unfold bootstrap_t_vec. run.
  destruct (Pool (Z.of_nat cpu_count - 1)); [|reflexivity].
  destruct (np_random_randint 100000000 B g) as [[seeds|e] g2] eqn:Hs;
    [|reflexivity].
  apply randint_range in Hs. destruct Hs as [Hs _].
  destruct (rmap _ seeds) as [tasks|e] eqn:Ht; [|reflexivity].
  rewrite (bootstrap_tasks_raise s B seeds tasks); [reflexivity | | assumption].
  intros ->. simpl in Hs. lia.
Qed.

(** C2 (defect).  The parallel mode of [bootstrap_ci] hands nine
    positional arguments to the eight-parameter worker [bootstrap_par]:
    with at least one repetition it never returns, and on a fitted
    analysis whose pool and seeds are obtained it ends in the
    [TypeError] of the first task, whereas the sequential mode returns
    as soon as its repetitions and the two quantiles are computed. *)
Theorem bootstrap_ci_parallel_arity (s : Valid_pred_sets) (B : nat) (sig_b : Q)
    (random_seed : Z) (g : rng) :
  (1 <= B)%nat ->
  is_ok (fst (bootstrap_ci s B sig_b random_seed true g)) = false /\
  (forall Xt r m X w g1 seeds g2,
     X_test s = Some Xt ->
     predict s Xt = Ok (Some r) ->
     np_random_seed random_seed g = (Ok tt, g1) ->
     (2 <= cpu_count)%nat ->
     np_random_randint 100000000 B g1 = (Ok seeds, g2) ->
     model s = Some m -> X_train s = Some X -> w_train s = Some w ->
     bootstrap_ci s B sig_b random_seed true g = (Raise TypeError, g2)) /\
  (forall Xt r g1 t_vec g2 lower upper,
     X_test s = Some Xt ->
     predict s Xt = Ok (Some r) ->
     np_random_seed random_seed g = (Ok tt, g1) ->
     for_range B (fun _ => bootstrap_body s B) g1 = (Ok t_vec, g2) ->
     B <> 1%nat ->
     np_quantile t_vec (sig_b / 2) = Ok lower ->
     np_quantile t_vec (1 - sig_b / 2) = Ok upper ->
     is_ok (fst (bootstrap_ci s B sig_b random_seed false g)) = true).
Proof.
  intros HB. split; [|split].
  - unfold bootstrap_ci. run.
    destruct (attr "X_test" (X_test s)) as [Xt|e]; [|reflexivity].
    destruct (predict s Xt) as [r|e]; [|reflexivity].
    destruct (as_array r) as [a|e]; [|reflexivity].
    destruct (np_random_seed random_seed g) as [[[]|e] g1]; [|reflexivity].
    pose proof (bootstrap_t_vec_parallel s B g1 HB) as Hpar.
    destruct (bootstrap_t_vec s B true g1) as [[t_vec|e] g2]; [discriminate|].
    reflexivity.
  - intros Xt r m X w g1 seeds g2 HXt Hr Hseed Hcpu Hs Hm HX Hw.
    unfold bootstrap_ci. run. rewrite HXt. simpl. rewrite Hr. simpl.
    rewrite Hseed. unfold bootstrap_t_vec. run.
    assert (HP : Pool (Z.of_nat cpu_count - 1) = Ok tt).
    { unfold Pool. destruct (Z.ltb_spec (Z.of_nat cpu_count - 1) 1); [lia|].
      reflexivity. }
    rewrite HP, Hs.
    destruct (randint_range _ _ _ _ _ Hs) as [Hlen _].
    destruct (rmap_total
                (fun seed => args <-! bootstrap_args s B seed ;;
                             Ok (apply_async call_bootstrap_par args)) seeds)
      as [tasks Ht].
    { apply Forall_forall. intros seed _. unfold bootstrap_args.
      rewrite Hm, HX, Hw, HXt. simpl. eauto. }
    rewrite Ht. rewrite (bootstrap_tasks_raise s B seeds tasks);
      [reflexivity | | assumption].
    intros ->. simpl in Hlen. lia.
  - intros Xt r g1 t_vec g2 lower upper HXt Hr Hseed Hloop HB1 Hlo Hup.
    unfold bootstrap_ci. run. rewrite HXt. simpl. rewrite Hr. simpl.
    rewrite Hseed. unfold bootstrap_t_vec. simpl. rewrite Hloop.
    unfold bootstrap_se. apply Nat.eqb_neq in HB1. rewrite HB1.
    rewrite Hlo, Hup. reflexivity.
Qed.

(** ** The bootstrap standard-error interval *)

Lemma numbers_length (l : list stat) :
  forall qs, numbers l = Some qs -> length qs = length l.
Proof.
  induction l as [|[q|] l IH]; simpl; intros qs H.
  - inversion H. reflexivity.
  - destruct (numbers l) as [qs'|]; simpl in H; [|discriminate].
    inversion H. simpl. f_equal. now apply IH.
  - discriminate.
Qed.

Lemma Qsum_squares_nonneg (m : Q) (qs : list Q) :
  0 <= Qsum (map (fun t => (t - m) ^ 2) qs).
Proof.
  induction qs as [|q qs IH]; simpl Qsum.
  - apply Qle_refl.
  - change (map (fun t => (t - m) ^ 2) (q :: qs))
      with (((q - m) ^ 2) :: map (fun t => (t - m) ^ 2) qs).
    simpl fold_right. fold (Qsum (map (fun t => (t - m) ^ 2) qs)).
    pose proof (Qsqr_nonneg (q - m)) as Hsq.
    change 0 with (0 + 0). now apply Qplus_le_compat.
Qed.

Lemma Q_of_nat_pred_nonneg (B : nat) : (1 <= B)%nat -> 0 <= Q_of_nat B - 1.
Proof.
  intros HB. unfold Q_of_nat, Qle, Qminus, Qplus, Qopp. simpl. lia.
Qed.

Lemma bootstrap_se_sample_sd (B : nat) (t_vec : list stat) (qs : list Q) :
  numbers t_vec = Some qs ->
  length t_vec = B ->
  (2 <= B)%nat ->
  bootstrap_se B t_vec = Ok (Some (sqrt (Q2R (sample_variance qs)))).
Proof.
  intros Hn Hlen HB. unfold bootstrap_se.
  destruct (Nat.eqb_spec B 1) as [->|_]; [lia|].
  pose proof (numbers_length t_vec qs Hn) as Hq.
  unfold sum_sq_dev, np_mean_stats. rewrite Hn.
  destruct t_vec as [|t0 t_vec]; [simpl in Hlen; lia|].
  destruct qs as [|q0 qs]; [discriminate|].
  cbn [np_mean option_map np_sqrt].
  set (m := Qsum (q0 :: qs) / Q_of_nat (length (q0 :: qs))).
  set (ss := Qsum (map (fun t => (t - m) ^ 2) (q0 :: qs))).
  assert (Hnn : 0 <= 1 / (Q_of_nat B - 1) * ss).
  { apply Qmult_le_0_compat; [|apply Qsum_squares_nonneg].
    unfold Qdiv. rewrite Qmult_1_l. apply Qinv_le_0_compat.
    apply Q_of_nat_pred_nonneg. lia. }
  apply Qle_bool_iff in Hnn. rewrite Hnn. do 3 f_equal.
  apply Qeq_eqR. unfold sample_variance. fold m. fold ss.
  rewrite Hq, Hlen. unfold Qdiv. ring.
Qed.

Lemma bootstrap_se_nonneg (B : nat) (t_vec : list stat) (e : R) :
  bootstrap_se B t_vec = Ok (Some e) -> (0 <= e)%R.
Proof.
  unfold bootstrap_se. destruct (Nat.eqb B 1); [discriminate|].
  destruct (option_map _ (sum_sq_dev t_vec)) as [q|]; simpl; [|discriminate].
  destruct (Qle_bool 0 q); [|discriminate].
  intros [= <-]. apply sqrt_pos.
Qed.

Lemma bootstrap_t_vec_length (s : Valid_pred_sets) (B : nat) (par : bool)
    (g g' : rng) (t_vec : list stat) :
  bootstrap_t_vec s B par g = (Ok t_vec, g') -> length t_vec = B.
Proof.
  unfold bootstrap_t_vec. destruct par; simpl.
  - run. destruct (Pool (Z.of_nat cpu_count - 1)); [|discriminate].
    destruct (np_random_randint 100000000 B g) as [[seeds|e] g2] eqn:Hs;
      [|discriminate].
    apply randint_range in Hs. destruct Hs as [Hs _].
    destruct (rmap _ seeds) as [tasks|e] eqn:Ht; [|discriminate].
    apply rmap_length in Ht.
    destruct (rmap (fun task => task) tasks) as [t|e] eqn:Hg; [|discriminate].
    apply rmap_length in Hg. intros [= <- _]. congruence.
  - apply for_range_length.
Qed.

(** The pieces of a call of [bootstrap_ci] that returns. *)
Lemma bootstrap_ci_inv (s : Valid_pred_sets) (B : nat) (sig_b : Q)
    (random_seed : Z) (par : bool) (g g' : rng) (res : BootstrapResult) :
  bootstrap_ci s B sig_b random_seed par g = (Ok res, g') ->
  exists Xt r g1 t_vec epb,
    X_test s = Some Xt /\
    predict s Xt = Ok (Some r) /\
    t_obs res = mean_abs_dev r (alpha s) /\
    np_random_seed random_seed g = (Ok tt, g1) /\
    bootstrap_t_vec s B par g1 = (Ok t_vec, g') /\
    bootstrap_se B t_vec = Ok epb /\
    SE_confidence_interval res
    = (rstat_op Rminus (rstat_of (t_obs res))
         (rstat_op Rmult (norm_ppf (1 - sig_b / 2)) epb),
       rstat_op Rplus (rstat_of (t_obs res))
         (rstat_op Rmult (norm_ppf (1 - sig_b / 2)) epb)).
Proof.
  unfold bootstrap_ci. run.
  destruct (X_test s) as [Xt|]; [|discriminate]. simpl.
  destruct (predict s Xt) as [[r|]|e] eqn:Hp; simpl; try discriminate.
  destruct (np_random_seed random_seed g) as [[[]|e] g1]; [|discriminate].
  destruct (bootstrap_t_vec s B par g1) as [[t_vec|e] g2] eqn:Ht; [|discriminate].
  destruct (bootstrap_se B t_vec) as [epb|e] eqn:He; [|discriminate].
  simpl.
  destruct (np_quantile t_vec (sig_b / 2)) as [lo|e]; [|discriminate].
  destruct (np_quantile t_vec (1 - sig_b / 2)) as [hi|e]; [|discriminate].
  simpl. intros [= <- <-]. simpl.
  exists Xt, r, g1, t_vec, epb. repeat split; auto.
Qed.

(** The two bounds, for an observed statistic [t], [B >= 2] bootstrap
    statistics that are numbers and a finite quantile [z]. *)
Lemma bootstrap_ci_se_bounds (s : Valid_pred_sets) (B : nat) (sig_b : Q)
    (random_seed : Z) (par : bool) (g g' : rng) (res : BootstrapResult)
    (g1 : rng) (t_vec : list stat) (t : Q) (qs : list Q) (z : R) :
  bootstrap_ci s B sig_b random_seed par g = (Ok res, g') ->
  np_random_seed random_seed g = (Ok tt, g1) ->
  bootstrap_t_vec s B par g1 = (Ok t_vec, g') ->
  t_obs res = Some t ->
  numbers t_vec = Some qs ->
  (2 <= B)%nat ->
  norm_ppf (1 - sig_b / 2) = Some z ->
  SE_confidence_interval res
  = (Some (Q2R t - z * sqrt (Q2R (sample_variance qs)))%R,
     Some (Q2R t + z * sqrt (Q2R (sample_variance qs)))%R).
Proof.
  intros Hrun Hseed Ht Hobs Hn HB Hz.
  destruct (bootstrap_ci_inv s B sig_b random_seed par g g' res Hrun)
    as [Xt [r [g1' [t_vec' [epb [_ [_ [_ [Hseed' [Ht' [He ->]]]]]]]]]]].
  rewrite Hseed in Hseed'. injection Hseed' as <-.
  rewrite Ht in Ht'. injection Ht' as <-.
  pose proof (bootstrap_t_vec_length _ _ _ _ _ _ Ht) as Hlen.
  rewrite (bootstrap_se_sample_sd B t_vec qs Hn Hlen HB) in He.
  injection He as <-. rewrite Hobs, Hz. reflexivity.
Qed.

(** C8 (as amended).  When [bootstrap_ci] returns, [t_obs] is the mean
    absolute deviation of the stored model's predictions on the held-out
    fold, and for [B >= 2] bootstrap statistics that are numbers and a
    finite normal quantile [z] at [1 - sig_b / 2] the SE interval is
    [t_obs - z * epb, t_obs + z * epb], with [epb >= 0] the square root
    of the Bessel-corrected sample variance of the [B] statistics: the
    two bounds lie at the same distance [z * epb] on either side of
    [t_obs].  For [sig_b <= 1] the quantile is non-negative and
    [lower <= t_obs <= upper]; for a negative quantile the two bounds are
    in the other order. *)
Theorem se_interval_symmetric (s : Valid_pred_sets) (B : nat) (sig_b : Q)
    (random_seed : Z) (par : bool) (g g' : rng) (res : BootstrapResult) :
  bootstrap_ci s B sig_b random_seed par g = (Ok res, g') ->
  exists Xt r g1 t_vec,
    X_test s = Some Xt /\
    predict s Xt = Ok (Some r) /\
    t_obs res = mean_abs_dev r (alpha s) /\
    np_random_seed random_seed g = (Ok tt, g1) /\
    bootstrap_t_vec s B par g1 = (Ok t_vec, g') /\
    length t_vec = B /\
    forall t qs z,
      t_obs res = Some t ->
      numbers t_vec = Some qs ->
      (2 <= B)%nat ->
      norm_ppf (1 - sig_b / 2) = Some z ->
      exists epb lower upper,
        epb = sqrt (Q2R (sample_variance qs)) /\
        (0 <= epb)%R /\
        SE_confidence_interval res = (Some lower, Some upper) /\
        lower = (Q2R t - z * epb)%R /\
        upper = (Q2R t + z * epb)%R /\
        (sig_b <= 1 -> (0 <= z)%R /\ (lower <= Q2R t <= upper)%R) /\
        ((z < 0)%R -> (upper <= Q2R t <= lower)%R).
Proof.
  intros Hrun.
  destruct (bootstrap_ci_inv s B sig_b random_seed par g g' res Hrun)
    as [Xt [r [g1 [t_vec [epb [HXt [Hp [Hobs [Hseed [Ht _]]]]]]]]]].
  exists Xt, r, g1, t_vec. do 5 (split; [assumption|]).
  split; [eapply bootstrap_t_vec_length; eauto|].
  intros t qs z Ht_obs Hn HB Hz.
  pose proof (bootstrap_ci_se_bounds s B sig_b random_seed par g g' res g1
                t_vec t qs z Hrun Hseed Ht Ht_obs Hn HB Hz) as Hint.
  pose proof (sqrt_pos (Q2R (sample_variance qs))) as He0.
  exists (sqrt (Q2R (sample_variance qs))),
    (Q2R t - z * sqrt (Q2R (sample_variance qs)))%R,
    (Q2R t + z * sqrt (Q2R (sample_variance qs)))%R.
  split; [reflexivity|]. split; [exact He0|]. split; [exact Hint|].
  split; [reflexivity|]. split; [reflexivity|]. split.
  - intros Hsig.
    assert (Hz0 : (0 <= z)%R).
    { apply (norm_ppf_nonneg (1 - sig_b / 2)); [|assumption].
      change (sig_b / 2) with (sig_b * (1 # 2)). Lqa.lra. }
    pose proof (Rmult_le_pos z _ Hz0 He0). split; [assumption | lra].
  - intros Hz0.
    assert ((z * sqrt (Q2R (sample_variance qs)) <= 0)%R) by nra.
    lra.
Qed.

(** ** The mode without a held-out fold *)

(** The evaluator initialisation only assigns [model] (and the estimator
    object it was given). *)
Lemma init_keeps_folds (random_seed prune_seed : Z) (kw : kwargs)
    (w : world) (r : result unit) (w1 : world) :
  _init_coverage_evaluator random_seed prune_seed kw w = (r, w1) ->
  X_train (self w1) = X_train (self w) /\
  X_test (self w1) = X_test (self w) /\
  w_train (self w1) = w_train (self w) /\
  w_test (self w1) = w_test (self w).
Proof.
  unfold _init_coverage_evaluator. run.
  repeat step; intros [= <- <-]; simpl; repeat split; reflexivity.
Qed.






End Properties.

(** * Further properties of the statistic and of the procedures *)

Section Further.

Context {L : Libraries}.

(** ** The discrepancy statistic *)

Lemma Qsum_nonneg (l : list Q) : Forall (fun x => 0 <= x) l -> 0 <= Qsum l.
Proof.
  induction 1 as [|x l Hx _ IH]; simpl.
  - apply Qle_refl.
  - change 0 with (0 + 0). now apply Qplus_le_compat.
Qed.

Lemma Q_of_nat_succ (n : nat) : Q_of_nat (S n) == Q_of_nat n + 1.
Proof.
  unfold Q_of_nat. rewrite Nat2Z.inj_succ. unfold Z.succ.
  rewrite inject_Z_plus. reflexivity.
Qed.

Lemma Q_of_nat_pos (n : nat) : (0 < n)%nat -> 0 < Q_of_nat n.
Proof. intros H. unfold Q_of_nat, Qlt. simpl. lia. Qed.

Lemma Qsum_le_bound (M : Q) (l : list Q) :
  Forall (fun x => x <= M) l -> Qsum l <= Q_of_nat (length l) * M.
Proof.
  induction 1 as [|x l Hx _ IH].
  - simpl. unfold Q_of_nat. simpl. rewrite Qmult_0_l. apply Qle_refl.
  - cbn [length Qsum fold_right]. fold (Qsum l). rewrite Q_of_nat_succ.
    rewrite Qmult_plus_distr_l, Qmult_1_l, Qplus_comm.
    now apply Qplus_le_compat.
Qed.

Lemma fold_max_ge (l : list Q) :
  forall x, x <= fold_left Qmax l x /\
            Forall (fun y => y <= fold_left Qmax l x) l.
Proof.
  induction l as [|y l IH]; intros x; simpl.
  - split; [apply Qle_refl | constructor].
  - destruct (IH (Qmax x y)) as [Hm Hall]. split; [|constructor].
    + eapply Qle_trans; [apply Q.le_max_l | exact Hm].
    + eapply Qle_trans; [apply Q.le_max_r | exact Hm].
    + exact Hall.
Qed.

Lemma fold_max_le (M : Q) (l : list Q) :
  forall x, x <= M -> Forall (fun y => y <= M) l -> fold_left Qmax l x <= M.
Proof.
  induction l as [|y l IH]; intros x Hx Hall; simpl.
  - exact Hx.
  - inversion Hall; subst. apply IH; [|assumption]. now apply Q.max_lub.
Qed.

Lemma np_max_spec (l : list Q) (m : Q) :
  np_max l = Ok m ->
  l <> [] /\ Forall (fun y => y <= m) l /\
  forall M, Forall (fun y => y <= M) l -> m <= M.
Proof.
  destruct l as [|x l]; simpl; [discriminate|]. intros [= <-].
  destruct (fold_max_ge l x) as [Hx Hall]. split; [discriminate|]. split.
  - constructor; assumption.
  - intros M HM. inversion HM; subst. now apply fold_max_le.
Qed.

Lemma Qsum_ge_bound (M : Q) (l : list Q) :
  Forall (fun x => M <= x) l -> Q_of_nat (length l) * M <= Qsum l.
Proof.
  induction 1 as [|x l Hx _ IH].
  - simpl. unfold Q_of_nat. simpl. rewrite Qmult_0_l. apply Qle_refl.
  - cbn [length Qsum fold_right]. fold (Qsum l). rewrite Q_of_nat_succ.
    rewrite Qmult_plus_distr_l, Qmult_1_l, Qplus_comm.
    now apply Qplus_le_compat.
Qed.

Lemma np_mean_bounds (lo hi : Q) (l : list Q) (t : Q) :
  np_mean l = Some t ->
  Forall (fun y => lo <= y) l -> Forall (fun y => y <= hi) l ->
  lo <= t /\ t <= hi.
Proof.
  destruct l as [|x l]; [discriminate|]. unfold np_mean. intros [= <-] Hlo Hhi.
  assert (Hn : 0 < Q_of_nat (length (x :: l))) by (apply Q_of_nat_pos; simpl; lia).
  split.
  - apply Qle_shift_div_l; [assumption|].
    rewrite Qmult_comm. exact (Qsum_ge_bound lo (x :: l) Hlo).
  - apply Qle_shift_div_r; [assumption|].
    rewrite Qmult_comm. exact (Qsum_le_bound hi (x :: l) Hhi).
Qed.

Lemma abs_dev_nonneg (a : ndarray) (alpha : Q) :
  Forall (fun y => 0 <= y) (abs_dev a alpha).
Proof.
  unfold abs_dev. apply Forall_forall. intros y Hy.
  apply in_map_iff in Hy as [x [<- _]]. apply Qabs_nonneg.
Qed.

(** The array [compute_dif] evaluates: the held-out fold when the
    analysis was split, the training fold otherwise. *)
Lemma compute_dif_inv (s : Valid_pred_sets) (t_obs : stat) (t_max : Q) :
  compute_dif s = Ok (t_obs, t_max) ->
  exists X a,
    (if split_train s then X_test s else X_train s) = Some X /\
    predict s X = Ok (Some a) /\
    t_obs = mean_abs_dev a (alpha s) /\
    np_max (abs_dev a (alpha s)) = Ok t_max.
Proof.
  unfold compute_dif. intros H.
  assert (exists X, (if split_train s then X_test s else X_train s) = Some X /\
                    (r <-! predict s X ;; r <-! as_array r ;;
                     t_max <-! np_max (abs_dev r (alpha s)) ;;
                     Ok (mean_abs_dev r (alpha s), t_max)) = Ok (t_obs, t_max))
    as [X [HX Hrun]].
  { destruct (split_train s).
    - destruct (X_test s) as [X|]; [|discriminate]. exists X. auto.
    - destruct (X_train s) as [X|]; [|discriminate]. exists X. auto. }
  destruct (predict s X) as [[a|]|e] eqn:Hp; try discriminate. simpl in Hrun.
  destruct (np_max (abs_dev a (alpha s))) as [m|e] eqn:Hm; [|discriminate].
  simpl in Hrun. inversion Hrun; subst. exists X, a. repeat split; auto.
Qed.

Lemma fold_max_in (l : list Q) :
  forall x, In (fold_left Qmax l x) (x :: l).
Proof.
  induction l as [|y l IH]; intros x; simpl.
  - left. reflexivity.
  - destruct (IH (Qmax x y)) as [H|H]; [|right; right; exact H].
    rewrite <- H. unfold Qmax, GenericMinMax.gmax.
    destruct (x ?= y); [left | right; left | left]; reflexivity.
Qed.

(** X1.  Whenever [compute_dif] returns, the array predicted on the fold
    it evaluates is not empty, its first component is a number (not
    [nan]) and is non-negative, and its second component is the
    deviation [|p - (1 - alpha)|] of one of the predictions [p], which
    no other prediction exceeds. *)
Theorem compute_dif_max_attained (s : Valid_pred_sets) (t_obs : stat)
    (t_max : Q) :
  compute_dif s = Ok (t_obs, t_max) ->
  exists X a,
    (if split_train s then X_test s else X_train s) = Some X /\
    predict s X = Ok (Some a) /\
    entries a <> [] /\
    (exists t, t_obs = Some t /\ 0 <= t) /\
    (exists p, In p (entries a) /\ t_max = Qabs (p - (1 - alpha s))) /\
    Forall (fun p => Qabs (p - (1 - alpha s)) <= t_max) (entries a).
Proof.
  intros H. destruct (compute_dif_inv s t_obs t_max H) as [X [a [HX [Hp [-> Hm]]]]].
  exists X, a. split; [exact HX|]. split; [exact Hp|].
  destruct (np_max_spec _ _ Hm) as [Hne [Hall _]].
  split; [|split; [|split]].
  - intros He. apply Hne. unfold abs_dev. rewrite He. reflexivity.
  - unfold mean_abs_dev.
    destruct (np_mean (abs_dev a (alpha s))) as [t|] eqn:Ht.
    + exists t. split; [reflexivity|].
      apply (np_mean_bounds 0 t_max _ t Ht); [apply abs_dev_nonneg | exact Hall].
    + destruct (abs_dev a (alpha s)); [congruence | discriminate].
  - unfold abs_dev in Hm.
    destruct (entries a) as [|p0 ps]; [discriminate|].
    cbn [map np_max] in Hm. injection Hm as <-.
    pose proof (fold_max_in (map (fun x => Qabs (x - (1 - alpha s))) ps)
                  (Qabs (p0 - (1 - alpha s)))) as Hin.
    change (In (fold_left Qmax (map (fun x => Qabs (x - (1 - alpha s))) ps)
                  (Qabs (p0 - (1 - alpha s))))
              (map (fun x => Qabs (x - (1 - alpha s))) (p0 :: ps))) in Hin.
    apply in_map_iff in Hin. destruct Hin as [p [Hp' Hin]].
    exists p. split; [exact Hin | symmetry; exact Hp'].
  - unfold abs_dev in Hall. rewrite Forall_map in Hall. exact Hall.
Qed.

Lemma Qsum_zero (l : list Q) :
  Forall (fun x => 0 <= x) l -> Qsum l <= 0 -> Forall (fun x => x == 0) l.
Proof.
  induction 1 as [|x l Hx Hl IH]; intros Hs; constructor.
  - cbn [Qsum fold_right] in Hs. fold (Qsum l) in Hs.
    pose proof (Qsum_nonneg l Hl) as Hn. apply Qle_antisym; [|assumption].
    Lqa.lra.
  - apply IH. cbn [Qsum fold_right] in Hs. fold (Qsum l) in Hs. Lqa.lra.
Qed.

Lemma abs_dev_zero (a : ndarray) (alpha : Q) :
  Forall (fun d => d == 0) (abs_dev a alpha) <->
  Forall (fun p => p == 1 - alpha) (entries a).
Proof.
  unfold abs_dev. rewrite Forall_map. split; intros H;
    (eapply Forall_impl; [|exact H]); cbv beta; intros p Hp.
  - assert (Hle : Qabs (p - (1 - alpha)) <= 0) by (rewrite Hp; apply Qle_refl).
    apply Qabs_Qle_condition in Hle. Lqa.lra.
  - apply Qle_antisym; [|apply Qabs_nonneg].
    apply Qabs_Qle_condition. Lqa.lra.
Qed.

(** X2.  The statistic vanishes exactly on the null: when [predict]
    yields a non-empty array on the evaluated fold, [compute_dif]
    returns, and its mean deviation is zero if and only if every
    predicted probability equals [1 - alpha]; likewise its maximal
    deviation. *)
Theorem compute_dif_zero_iff_null (s : Valid_pred_sets) (X : matrix)
    (a : ndarray) :
  (if split_train s then X_test s else X_train s) = Some X ->
  predict s X = Ok (Some a) ->
  entries a <> [] ->
  exists t m,
    compute_dif s = Ok (Some t, m) /\
    (t == 0 <-> Forall (fun p => p == 1 - alpha s) (entries a)) /\
    (m == 0 <-> Forall (fun p => p == 1 - alpha s) (entries a)).
Proof.
  intros HX Hp Hne.
  assert (Hl : abs_dev a (alpha s) <> []).
  { unfold abs_dev. destruct (entries a); [congruence | discriminate]. }
  destruct (np_max (abs_dev a (alpha s))) as [m|e] eqn:Hm.
  2:{ destruct (abs_dev a (alpha s)); [congruence | discriminate]. }
  destruct (np_mean (abs_dev a (alpha s))) as [t|] eqn:Ht.
  2:{ destruct (abs_dev a (alpha s)); [congruence | discriminate]. }
  exists t, m.
  assert (Hrun : compute_dif s = Ok (Some t, m)).
  { unfold compute_dif.
    destruct (split_train s); rewrite HX; simpl; rewrite Hp; simpl;
      rewrite Hm; simpl; unfold mean_abs_dev; rewrite Ht; reflexivity. }
  split; [exact Hrun|].
  destruct (np_max_spec _ _ Hm) as [_ [Hall Hleast]].
  pose proof (abs_dev_nonneg a (alpha s)) as Hnn.
  rewrite <- !abs_dev_zero. split; split.
  - intros Ht0.
    assert (Hsum : Qsum (abs_dev a (alpha s)) <= 0).
    { destruct (abs_dev a (alpha s)) as [|d l] eqn:El; [congruence|].
      injection Ht as Ht. rewrite <- Ht in Ht0.
      assert (Hn : 0 < Q_of_nat (length (d :: l)))
        by (apply Q_of_nat_pos; simpl; lia).
      assert (Hq : Qsum (d :: l)
                   == Qsum (d :: l) / Q_of_nat (length (d :: l))
                      * Q_of_nat (length (d :: l))).
      { field. intros Hc. rewrite Hc in Hn. discriminate. }
      rewrite Hq, Ht0, Qmult_0_l. apply Qle_refl. }
    now apply Qsum_zero.
  - intros Hz.
    assert (H0 : Forall (fun y => 0 <= y) (abs_dev a (alpha s))) by exact Hnn.
    assert (H1 : Forall (fun y => y <= 0) (abs_dev a (alpha s))).
    { eapply Forall_impl; [|exact Hz]. cbv beta. intros d Hd. rewrite Hd.
      apply Qle_refl. }
    destruct (np_mean_bounds 0 0 _ t Ht H0 H1). now apply Qle_antisym.
  - intros Hm0. apply Forall_forall. intros d Hd.
    rewrite Forall_forall in Hall, Hnn. apply Qle_antisym.
    + rewrite <- Hm0. now apply Hall.
    + now apply Hnn.
  - intros Hz.
    assert (H1 : Forall (fun y => y <= 0) (abs_dev a (alpha s))).
    { eapply Forall_impl; [|exact Hz]. cbv beta. intros d Hd. rewrite Hd.
      apply Qle_refl. }
    apply Qle_antisym; [now apply Hleast|].
    destruct (abs_dev a (alpha s)) as [|d l]; [congruence|].
    inversion Hall; inversion Hnn; subst. eapply Qle_trans; eauto.
Qed.

(** X3.  For probabilities in [0, 1] and a level [alpha] in [0, 1], both
    components returned by [compute_dif] lie in [0, 1]. *)
Theorem compute_dif_unit_interval (s : Valid_pred_sets) (X : matrix)
    (a : ndarray) (t_obs : stat) (t_max : Q) :
  (if split_train s then X_test s else X_train s) = Some X ->
  predict s X = Ok (Some a) ->
  Forall (fun p => 0 <= p /\ p <= 1) (entries a) ->
  0 <= alpha s -> alpha s <= 1 ->
  compute_dif s = Ok (t_obs, t_max) ->
  0 <= t_max /\ t_max <= 1 /\
  exists t, t_obs = Some t /\ 0 <= t /\ t <= 1.
Proof.
  intros HX Hp Hprob Ha0 Ha1 Hrun.
  destruct (compute_dif_inv s t_obs t_max Hrun) as [X' [a' [HX' [Hp' [-> Hm]]]]].
  assert (a' = a) by congruence. subst a'.
  destruct (np_max_spec _ _ Hm) as [Hne [Hall Hleast]].
  assert (Hbound : Forall (fun d => d <= 1) (abs_dev a (alpha s))).
  { unfold abs_dev. rewrite Forall_map. eapply Forall_impl; [|exact Hprob].
    cbv beta. intros p [Hp0 Hp1].
    apply Qabs_Qle_condition. split; Lqa.lra. }
  assert (Hmax0 : 0 <= t_max).
  { pose proof (abs_dev_nonneg a (alpha s)) as Hnn.
    destruct (abs_dev a (alpha s)) as [|d ds]; [congruence|].
    inversion Hnn; subst. inversion Hall; subst. eapply Qle_trans; eauto. }
  split; [exact Hmax0|]. split; [now apply Hleast|].
  unfold mean_abs_dev.
  destruct (np_mean (abs_dev a (alpha s))) as [t|] eqn:Ht.
  2:{ destruct (abs_dev a (alpha s)); [congruence | discriminate]. }
  exists t. split; [reflexivity|].
  exact (np_mean_bounds 0 1 _ t Ht (abs_dev_nonneg a (alpha s)) Hbound).
Qed.

(** X4.  Where [compute_dif] stops: on the attribute of the fold it
    evaluates when [fit] did not create it, with a [TypeError] when
    [predict] fell off its end, with the [ValueError] of [np.max] when
    the predicted array is empty, and with the exception of [predict]
    otherwise. *)
Theorem compute_dif_errors (s : Valid_pred_sets) :
  ((if split_train s then X_test s else X_train s) = None ->
   compute_dif s
   = Raise (AttributeError (if split_train s then "X_test" else "X_train"))) /\
  (forall X,
     (if split_train s then X_test s else X_train s) = Some X ->
     (predict s X = Ok None -> compute_dif s = Raise TypeError) /\
     (forall a, predict s X = Ok (Some a) -> entries a = [] ->
                compute_dif s = Raise ValueError) /\
     (forall e, predict s X = Raise e -> compute_dif s = Raise e)).
Proof.
  unfold compute_dif. split.
  - destruct (split_train s); intros ->; reflexivity.
  - intros X HX. split; [|split].
    + intros Hp. destruct (split_train s); rewrite HX; simpl; rewrite Hp;
        reflexivity.
    + intros a Hp He. unfold abs_dev.
      destruct (split_train s); rewrite HX; simpl; rewrite Hp; simpl;
        rewrite He; reflexivity.
    + intros e Hp. destruct (split_train s); rewrite HX; simpl; rewrite Hp;
        reflexivity.
Qed.

(** ** What [fit] changes and what it leaves *)

Lemma init_frame (random_seed prune_seed : Z) (kw : kwargs)
    (w : world) (r : result unit) (w1 : world) :
  _init_coverage_evaluator random_seed prune_seed kw w = (r, w1) ->
  same_settings (self w) (self w1) /\
  (forall tag, coverage_evaluator (self w) = Tag tag ->
               coverage_evaluator (self w1) = Tag tag) /\
  (r = Ok tt ->
   exists m, model (self w1) = Some m /\
     forall e, coverage_evaluator (self w) = Estimator e ->
               coverage_evaluator (self w1) = Estimator m).
Proof.
  unfold _init_coverage_evaluator, same_settings. run.
  repeat step; intros [= <- <-]; simpl;
    (split; [repeat split; congruence|]);
    (split; [intros tag Htag; congruence|]);
    intros Hr; try discriminate; eexists; (split; [reflexivity|]);
    intros e' He'; try rewrite He' in *; simpl in *; congruence.
Qed.

(** X5.  [fit] never changes the settings given to the constructor (the
    interval predictor, [alpha], the three mode flags and [prune]), and a
    family tag stays the tag it was, whether the call returns or raises. *)
Theorem fit_keeps_settings (w0 : world) (X_calib : matrix) (y_calib : vector)
    (random_seed prune_seed : Z) (test_size : Q) (kw : kwargs) :
  same_settings (self w0)
    (self (snd (fit X_calib y_calib random_seed prune_seed test_size kw w0))) /\
  forall tag,
    coverage_evaluator (self w0) = Tag tag ->
    coverage_evaluator
      (self (snd (fit X_calib y_calib random_seed prune_seed test_size kw w0)))
    = Tag tag.
Proof.
  assert (Hrefl : forall s : Valid_pred_sets, same_settings s s)
    by (intros s; repeat split).
  unfold fit. run.
  destruct (predict_intervals (self w0) X_calib) as [preds|e];
    [|simpl; auto].
  destruct (np_random_seed random_seed (np_random w0)) as [[[]|e] g1];
    [|simpl; auto].
  destruct (label y_calib preds) as [w|e]; [|simpl; auto].
  destruct (split_train (self w0)) eqn:Hsplit; simpl.
  - destruct (train_test_split X_calib w test_size None g1)
      as [[[[[Xtr Xte] wtr] wte]|e] g2]; simpl; [|auto].
    match goal with
    | |- context [_init_coverage_evaluator ?a ?b ?c ?w] =>
        destruct (_init_coverage_evaluator a b c w) as [r w1] eqn:Hinit
    end.
    apply init_frame in Hinit. simpl in *.
    destruct Hinit as [Hs [Htag _]]. auto.
  - match goal with
    | |- context [_init_coverage_evaluator ?a ?b ?c ?w] =>
        destruct (_init_coverage_evaluator a b c w) as [r w1] eqn:Hinit
    end.
    apply init_frame in Hinit. simpl in *.
    destruct Hinit as [Hs [Htag _]]. auto.
Qed.

Lemma fit_ok_inv (w0 : world) (X_calib : matrix)
    (y_calib : vector) (random_seed prune_seed : Z) (test_size : Q)
    (kw : kwargs) (w1 : world) :
  fit X_calib y_calib random_seed prune_seed test_size kw w0 = (Ok tt, w1) ->
  exists preds w m,
    predict_intervals (self w0) X_calib = Ok preds /\
    label y_calib preds = Ok w /\
    model (self w1) = Some m /\
    split_train (self w1) = split_train (self w0) /\
    (forall e, coverage_evaluator (self w0) = Estimator e ->
               coverage_evaluator (self w1) = Estimator m) /\
    (split_train (self w0) = false ->
     X_train (self w1) = Some X_calib /\ w_train (self w1) = Some w /\
     X_test (self w1) = X_test (self w0) /\
     w_test (self w1) = w_test (self w0)) /\
    (split_train (self w0) = true ->
     exists g g' Xtr Xte wtr wte,
       train_test_split X_calib w test_size None g
       = (Ok (Xtr, Xte, wtr, wte), g') /\
       X_train (self w1) = Some Xtr /\ X_test (self w1) = Some Xte /\
       w_train (self w1) = Some wtr /\ w_test (self w1) = Some wte).
Proof.
  unfold fit. run.
  destruct (predict_intervals (self w0) X_calib) as [preds|e] eqn:Hpi;
    [|discriminate].
  destruct (np_random_seed random_seed (np_random w0)) as [[[]|e] g1];
    [|discriminate].
  destruct (label y_calib preds) as [w|e] eqn:Hl; [|discriminate].
  destruct (split_train (self w0)) eqn:Hsplit; simpl.
  - destruct (train_test_split X_calib w test_size None g1)
      as [[[[[Xtr Xte] wtr] wte]|e] g2] eqn:Hs; simpl; [|discriminate].
    intros Hinit. pose proof (init_keeps_folds _ _ _ _ _ _ Hinit) as Hk.
    apply init_frame in Hinit. simpl in *.
    destruct Hinit as [[_ [_ [_ [_ [_ Hst]]]]] [_ Hm]]. simpl in Hst.
    destruct (Hm eq_refl) as [m [Hmod Hce]].
    destruct Hk as [H1 [H2 [H3 H4]]].
    exists preds, w, m. split; [reflexivity|]. split; [assumption|].
    split; [assumption|]. split; [congruence|]. split; [assumption|].
    split; [discriminate|].
    intros _. exists g1, g2, Xtr, Xte, wtr, wte. repeat split; auto.
  - intros Hinit. pose proof (init_keeps_folds _ _ _ _ _ _ Hinit) as Hk.
    apply init_frame in Hinit. simpl in *.
    destruct Hinit as [[_ [_ [_ [_ [_ Hst]]]]] [_ Hm]]. simpl in Hst.
    destruct (Hm eq_refl) as [m [Hmod Hce]].
    destruct Hk as [H1 [H2 [H3 H4]]].
    exists preds, w, m. split; [reflexivity|]. split; [assumption|].
    split; [assumption|]. split; [congruence|]. split; [assumption|].
    split; [|discriminate].
    intros _. repeat split; assumption.
Qed.

(** X6.  When [fit] returns, the analysis is complete: a fitted model is
    stored, the labels are the coverage indicator of the targets, and
    the folds are the whole calibration sample (without split) or the
    four arrays the splitter returned for the sample and its labels
    (with split). *)
Theorem fit_stores_folds_and_model (w0 : world) (X_calib : matrix)
    (y_calib : vector) (random_seed prune_seed : Z) (test_size : Q)
    (kw : kwargs) (w1 : world) :
  fit X_calib y_calib random_seed prune_seed test_size kw w0 = (Ok tt, w1) ->
  exists preds w m,
    predict_intervals (self w0) X_calib = Ok preds /\
    label y_calib preds = Ok w /\
    model (self w1) = Some m /\
    (split_train (self w0) = false ->
     X_train (self w1) = Some X_calib /\ w_train (self w1) = Some w /\
     X_test (self w1) = X_test (self w0) /\
     w_test (self w1) = w_test (self w0)) /\
    (split_train (self w0) = true ->
     exists g g' Xtr Xte wtr wte,
       train_test_split X_calib w test_size None g
       = (Ok (Xtr, Xte, wtr, wte), g') /\
       X_train (self w1) = Some Xtr /\ X_test (self w1) = Some Xte /\
       w_train (self w1) = Some wtr /\ w_test (self w1) = Some wte).
Proof.
  intros Hfit.
  destruct (fit_ok_inv _ _ _ _ _ _ _ _ Hfit)
    as [preds [w [m [H1 [H2 [H3 [_ [_ [H4 H5]]]]]]]]].
  exists preds, w, m. auto.
Qed.

(** ** The custom-estimator slot *)

(** X7.  An estimator object passed as [coverage_evaluator] is fitted in
    place and becomes the model; but unless the name of its type contains
    "sklearn", no branch of [predict] applies to it: [predict] returns
    [None], and [compute_dif], [monte_carlo_test] and (with a held-out
    fold) [bootstrap_ci] raise a [TypeError]. *)
Theorem custom_estimator_needs_sklearn_type (w0 : world) (e : Model)
    (X_calib : matrix) (y_calib : vector) (random_seed prune_seed : Z)
    (test_size : Q) (kw : kwargs) (w1 : world) :
  coverage_evaluator (self w0) = Estimator e ->
  fit X_calib y_calib random_seed prune_seed test_size kw w0 = (Ok tt, w1) ->
  exists m,
    model (self w1) = Some m /\
    coverage_evaluator (self w1) = Estimator m /\
    (contains "sklearn" (type_str m) = false ->
     (forall X, predict (self w1) X = Ok None) /\
     compute_dif (self w1) = Raise TypeError /\
     (forall B seed par g,
        monte_carlo_test (self w1) B seed par g = (Raise TypeError, g)) /\
     (split_train (self w0) = true ->
      forall B sig_b seed par g,
        bootstrap_ci (self w1) B sig_b seed par g = (Raise TypeError, g))).
Proof.
  intros Hce Hfit.
  destruct (fit_ok_inv _ _ _ _ _ _ _ _ Hfit)
    as [preds [w [m [_ [_ [Hm [Hsplit [Halias [Hno Hyes]]]]]]]]].
  exists m. split; [assumption|]. split; [now apply (Halias e)|].
  intros Hsk.
  assert (Hpred : forall X, predict (self w1) X = Ok None).
  { intros X. apply predict_falls_through with (m := m); auto;
      rewrite (Halias e Hce); reflexivity. }
  assert (Hdif : compute_dif (self w1) = Raise TypeError).
  { unfold compute_dif. rewrite Hsplit.
    destruct (split_train (self w0)).
    - destruct (Hyes eq_refl) as [g [g' [Xtr [Xte [wtr [wte [_ [_ [HXt _]]]]]]]]].
      rewrite HXt. simpl. rewrite Hpred. reflexivity.
    - destruct (Hno eq_refl) as [HX _]. rewrite HX. simpl. rewrite Hpred.
      reflexivity. }
  split; [assumption|]. split; [assumption|]. split.
  - intros B seed par g. unfold monte_carlo_test. run. rewrite Hdif.
    reflexivity.
  - intros Hs B sig_b seed par g.
    destruct (Hyes Hs) as [g0 [g' [Xtr [Xte [wtr [wte [_ [_ [HXt _]]]]]]]]].
    unfold bootstrap_ci. run. rewrite HXt. simpl. rewrite Hpred. reflexivity.
Qed.

(** ** Refits and repetitions *)

(** X8.  For an RF tag, a scikit-learn model or the GAM tag, [retrain]
    does not use the fold passed as its third argument: whatever is
    passed, the refit is evaluated on the attribute [X_test], and the
    result is the one the worker's [retrain_par] computes on [X_test]. *)
Theorem retrain_evaluates_on_X_test (s : Valid_pred_sets) (m : Model)
    (X_train_arg : matrix) (new_w : vector) (Xt : matrix) (g : rng) :
  model s = Some m ->
  X_test s = Some Xt ->
  sklearn_branch (coverage_evaluator s) m = true \/
  is_tag (coverage_evaluator s) "GAM" = true ->
  forall X_test_arg,
    retrain s X_train_arg new_w X_test_arg g
    = retrain_par (coverage_evaluator s) m X_train_arg new_w Xt g.
Proof.
  intros Hm HXt Hbranch X_test_arg.
  unfold retrain_par, retrain, sklearn_branch in *.
  unfold bind, lift, ret. rewrite Hm, HXt. simpl.
  destruct (is_tag (coverage_evaluator s) "RF") eqn:Hrf; simpl in *.
  - reflexivity.
  - destruct (contains "sklearn" (type_str m)) eqn:Hsk.
    + reflexivity.
    + destruct Hbranch as [Hb|Hb]; [discriminate|]. rewrite Hb. reflexivity.
Qed.

Lemma np_greater_two (t_b : list stat) (a b : stat) (mask : list bool) :
  np_greater t_b [a; b] = Ok mask ->
  (length t_b = 1%nat \/ length t_b = 2%nat) /\
  exists b1 b2, mask = [b1; b2].
Proof.
  destruct t_b as [|x [|y [|z t]]]; simpl; try discriminate.
  - intros [= <-]. split; [left; reflexivity | eauto].
  - intros [= <-]. split; [right; reflexivity | eauto].
Qed.

(** X9.  Whenever [monte_carlo_test] returns, the number of repetitions
    was 1 or 2, the "Observed statistic" of the result is the pair
    returned by [compute_dif], and the p-value is the mean of two
    comparisons: 0, 1/2 or 1. *)
Theorem monte_carlo_test_when_it_returns (s : Valid_pred_sets) (B : nat)
    (random_seed : Z) (par : bool) (g g' : rng) (res : TestResult) :
  monte_carlo_test s B random_seed par g = (Ok res, g') ->
  (B = 1%nat \/ B = 2%nat) /\
  compute_dif s = Ok (observed_statistic res) /\
  exists p, p_value res = Some p /\ (p == 0 \/ p == 1 # 2 \/ p == 1).
Proof.
  assert (Hfin : forall (t : stat * Q) (t_b : list stat) (g2 : rng),
            (let (r, s') := (lift (np_greater t_b [fst t; Some (snd t)]) g2) in
             match r with
             | Ok mask =>
                 (Ok {| p_value := mean_bool mask; observed_statistic := t |}, s')
             | Raise e => (Raise e, s')
             end) = (Ok res, g') ->
            (length t_b = 1%nat \/ length t_b = 2%nat) /\
            Ok t = Ok (observed_statistic res) /\
            exists p, p_value res = Some p /\
                      (p == 0 \/ p == 1 # 2 \/ p == 1)).
  { intros t t_b g2. unfold lift.
    destruct (np_greater t_b [fst t; Some (snd t)]) as [mask|e] eqn:Hmask;
      [|discriminate].
    intros [= <- _]. simpl.
    destruct (np_greater_two _ _ _ _ Hmask) as [Hlen [b1 [b2 ->]]].
    split; [assumption|]. split; [reflexivity|].
    unfold mean_bool. simpl. eexists. split; [reflexivity|].
    destruct b1, b2; [right; right | right; left | right; left | left];
      reflexivity. }
  unfold monte_carlo_test. unfold bind, ret. unfold lift at 1.
  destruct (compute_dif s) as [t|e]; [|discriminate].
  destruct (np_random_seed random_seed g) as [[[]|e] g1]; [|discriminate].
  destruct par; cbv beta iota delta [negb].
  - unfold lift at 1.
    destruct (Pool (Z.of_nat cpu_count - 1)); cbv beta iota; [|discriminate].
    destruct (np_random_randint 100000000 B g1) as [[seeds|e] g2] eqn:Hs;
      cbv beta iota; [|discriminate].
    apply randint_range in Hs. destruct Hs as [Hs _].
    unfold lift at 1.
    destruct (rmap _ seeds) as [tasks|e] eqn:Ht; cbv beta iota; [|discriminate].
    apply rmap_length in Ht.
    unfold lift at 1.
    destruct (rmap (fun task => task) tasks) as [t_b|e] eqn:Hg; cbv beta iota;
      [|discriminate].
    apply rmap_length in Hg. intros Hres.
    destruct (Hfin t t_b g2 Hres) as [Hlen Hrest].
    split; [|exact Hrest]. rewrite <- Hs, <- Ht, <- Hg. exact Hlen.
  - destruct (for_range B (fun _ => monte_carlo_body s) g1)
      as [[t_b|e] g2] eqn:Hl; cbv beta iota; [|discriminate].
    apply for_range_length in Hl. intros Hres.
    destruct (Hfin t t_b g2 Hres) as [Hlen Hrest].
    split; [|exact Hrest]. rewrite <- Hl. exact Hlen.
Qed.

(** X10.  With exactly one repetition [bootstrap_ci] never returns: the
    parallel mode stops on its first task, and the sequential mode, once
    its repetition is computed, on the integer division [1 / (B - 1)]. *)
Theorem bootstrap_ci_single_repetition (s : Valid_pred_sets) (sig_b : Q)
    (random_seed : Z) (g : rng) :
  (forall par,
     is_ok (fst (bootstrap_ci s 1 sig_b random_seed par g)) = false) /\
  (forall Xt r g1 t_vec g2,
     X_test s = Some Xt ->
     predict s Xt = Ok (Some r) ->
     np_random_seed random_seed g = (Ok tt, g1) ->
     for_range 1 (fun _ => bootstrap_body s 1) g1 = (Ok t_vec, g2) ->
     bootstrap_ci s 1 sig_b random_seed false g = (Raise ZeroDivisionError, g2)).
Proof.
  split.
  - intros par. unfold bootstrap_ci. run.
    destruct (attr "X_test" (X_test s)) as [Xt|e]; [|reflexivity].
    destruct (predict s Xt) as [r|e]; [|reflexivity].
    destruct (as_array r) as [a|e]; [|reflexivity].
    destruct (np_random_seed random_seed g) as [[[]|e] g1]; [|reflexivity].
    destruct par.
    + pose proof (bootstrap_t_vec_parallel s 1 g1 (le_n 1)) as Hpar.
      destruct (bootstrap_t_vec s 1 true g1) as [[t_vec|e] g2];
        [discriminate | reflexivity].
    + destruct (bootstrap_t_vec s 1 false g1) as [[t_vec|e] g2]; reflexivity.
  - intros Xt r g1 t_vec g2 HXt Hr Hseed Hloop.
    unfold bootstrap_ci. run. rewrite HXt. simpl. rewrite Hr. simpl.
    rewrite Hseed. unfold bootstrap_t_vec. simpl. rewrite Hloop. reflexivity.
Qed.

(** X11.  On a machine with a single core the pool is asked for zero
    workers: the parallel mode of [monte_carlo_test] and of
    [bootstrap_ci] never returns, and once the observed statistic is
    computed and the generator seeded it stops with the [ValueError] of
    the pool, before any seed is drawn. *)
Theorem parallel_needs_two_cores (s : Valid_pred_sets) (B : nat) (sig_b : Q)
    (random_seed : Z) (g : rng) :
  (cpu_count <= 1)%nat ->
  is_ok (fst (monte_carlo_test s B random_seed true g)) = false /\
  is_ok (fst (bootstrap_ci s B sig_b random_seed true g)) = false /\
  (forall t g1,
     compute_dif s = Ok t ->
     np_random_seed random_seed g = (Ok tt, g1) ->
     monte_carlo_test s B random_seed true g = (Raise ValueError, g1)) /\
  (forall Xt r g1,
     X_test s = Some Xt ->
     predict s Xt = Ok (Some r) ->
     np_random_seed random_seed g = (Ok tt, g1) ->
     bootstrap_ci s B sig_b random_seed true g = (Raise ValueError, g1)).
Proof.
  intros Hcpu.
  assert (HP : Pool (Z.of_nat cpu_count - 1) = Raise ValueError).
  { unfold Pool. destruct (Z.ltb_spec (Z.of_nat cpu_count - 1) 1); [|lia].
    reflexivity. }
  split; [|split; [|split]].
  - unfold monte_carlo_test. run.
    destruct (compute_dif s) as [t|e]; [|reflexivity].
    destruct (np_random_seed random_seed g) as [[[]|e] g1]; [|reflexivity].
    rewrite HP. reflexivity.
  - unfold bootstrap_ci, bootstrap_t_vec. run.
    destruct (attr "X_test" (X_test s)) as [Xt|e]; [|reflexivity].
    destruct (predict s Xt) as [r|e]; [|reflexivity].
    destruct (as_array r) as [a|e]; [|reflexivity].
    destruct (np_random_seed random_seed g) as [[[]|e] g1]; [|reflexivity].
    rewrite HP. reflexivity.
  - intros t g1 Ht Hseed. unfold monte_carlo_test. run.
    rewrite Ht, Hseed, HP. reflexivity.
  - intros Xt r g1 HXt Hr Hseed. unfold bootstrap_ci, bootstrap_t_vec. run.
    rewrite HXt. simpl. rewrite Hr. simpl. rewrite Hseed, HP. reflexivity.
Qed.

(** X12.  [monte_carlo_test] and [bootstrap_ci] compute the observed
    statistic from the stored model, then reseed numpy's global
    generator before they draw from it: for a seed whose seeding does
    not depend on the state of the generator, the outcome of either
    procedure does not depend on the state the generator was in when it
    was called. *)
Theorem reseeding_makes_reproducible (random_seed : Z) :
  (forall g g', np_random_seed random_seed g = np_random_seed random_seed g') ->
  (forall s B par g g',
     fst (monte_carlo_test s B random_seed par g)
     = fst (monte_carlo_test s B random_seed par g')) /\
  (forall s B sig_b par g g',
     fst (bootstrap_ci s B sig_b random_seed par g)
     = fst (bootstrap_ci s B sig_b random_seed par g')).
Proof.
  intros Hseed. split.
  - intros s B par g g'. unfold monte_carlo_test. run.
    destruct (compute_dif s) as [t|e]; [|reflexivity].
    rewrite (Hseed g g'). reflexivity.
  - intros s B sig_b par g g'. unfold bootstrap_ci. run.
    destruct (attr "X_test" (X_test s)) as [Xt|e]; [|reflexivity].
    destruct (predict s Xt) as [r|e]; [|reflexivity].
    destruct (as_array r) as [a|e]; [|reflexivity].
    rewrite (Hseed g g'). reflexivity.
Qed.

End Further.

(** * Properties of the quantile-regression adapters *)

Section Adapters.

Context {L : Libraries} {Rg : Regressors}.

Lemma transpose_two (lower upper : vector) :
  length lower = length upper ->
  transpose [lower; upper]
  = map (fun lu => [fst lu; snd lu]) (combine lower upper).
Proof.
  unfold transpose. revert upper.
  induction lower as [|l lower IH]; intros [|u upper] Hlen;
    simpl in Hlen; try discriminate; [reflexivity|].
  cbn [length seq map combine nth fst snd]. f_equal.
  rewrite <- seq_shift, map_map. cbn [nth]. apply IH. lia.
Qed.

Lemma interval_rows (lower upper : vector) (M : matrix) :
  (stacked <-! np_vstack2 lower upper ;; Ok (transpose stacked)) = Ok M ->
  length lower = length upper /\
  M = map (fun lu => [fst lu; snd lu]) (combine lower upper).
Proof.
  unfold np_vstack2. destruct (Nat.eqb_spec (length lower) (length upper))
    as [Hlen|]; simpl; [|discriminate].
  intros [= <-]. split; [assumption | now apply transpose_two].
Qed.

Lemma rows_nth (lower upper : vector) :
  length lower = length upper ->
  length (map (fun lu : Q * Q => [fst lu; snd lu]) (combine lower upper))
  = length lower /\
  forall i l u,
    nth_error lower i = Some l -> nth_error upper i = Some u ->
    nth_error (map (fun lu : Q * Q => [fst lu; snd lu]) (combine lower upper)) i
    = Some [l; u].
Proof.
  intros Hlen. split.
  - rewrite length_map, length_combine. lia.
  - intros i l u Hl Hu. rewrite nth_error_map.
    assert (Hc : nth_error (combine lower upper) i = Some (l, u))
      by (apply nth_error_combine; auto).
    rewrite Hc. reflexivity.
Qed.

(** X13.  [LinearQuantileRegression.fit] gives the lower regressor the
    level [coverage / 2] and, when the lower fit succeeds, the upper one
    the level [1 - coverage / 2], both with the [alpha], [fit_intercept],
    [solver] and [solver_options] of the adapter, whose own attributes it
    leaves unchanged.  When it returns, both regressors are fitted. *)
Theorem linear_fit_sets_levels (self self' : LinearQuantileRegression.t)
    (X : matrix) (y : vector) (r : result unit) :
  LinearQuantileRegression.fit X y self = (r, self') ->
  LinearQuantileRegression.coverage self' = LinearQuantileRegression.coverage self /\
  LinearQuantileRegression.alpha self' = LinearQuantileRegression.alpha self /\
  LinearQuantileRegression.quantile (LinearQuantileRegression.lower self')
  = LinearQuantileRegression.coverage self / 2 /\
  LinearQuantileRegression.qr_alpha (LinearQuantileRegression.lower self')
  = LinearQuantileRegression.alpha self /\
  LinearQuantileRegression.qr_solver (LinearQuantileRegression.lower self')
  = LinearQuantileRegression.solver self /\
  LinearQuantileRegression.qr_fit_intercept (LinearQuantileRegression.lower self')
  = LinearQuantileRegression.fit_intercept self /\
  LinearQuantileRegression.qr_solver_options (LinearQuantileRegression.lower self')
  = LinearQuantileRegression.solver_options self /\
  (r = Ok tt ->
   LinearQuantileRegression.quantile (LinearQuantileRegression.upper self')
   = 1 - LinearQuantileRegression.coverage self / 2 /\
   LinearQuantileRegression.qr_alpha (LinearQuantileRegression.upper self')
   = LinearQuantileRegression.alpha self /\
   LinearQuantileRegression.qr_solver (LinearQuantileRegression.upper self')
   = LinearQuantileRegression.solver self /\
   LinearQuantileRegression.qr_fit_intercept (LinearQuantileRegression.upper self')
   = LinearQuantileRegression.fit_intercept self /\
   LinearQuantileRegression.qr_solver_options (LinearQuantileRegression.upper self')
   = LinearQuantileRegression.solver_options self /\
   LinearQuantileRegression.coef_ (LinearQuantileRegression.lower self') <> None /\
   LinearQuantileRegression.coef_ (LinearQuantileRegression.upper self') <> None).
Proof.
  unfold LinearQuantileRegression.fit. unfold bind, lift. cbv beta iota.
  unfold LinearQuantileRegression.regressor_fit at 1. cbn [fst snd].
  cbn [LinearQuantileRegression.set_params LinearQuantileRegression.quantile
       LinearQuantileRegression.qr_alpha LinearQuantileRegression.qr_fit_intercept
       LinearQuantileRegression.qr_solver
       LinearQuantileRegression.qr_solver_options].
  destruct (quantile_fit (LinearQuantileRegression.coverage self / 2) _ _ _ _ X y)
    as [cl|e]; cbn [rbind].
  2:{ intros [= <- <-]. cbn -[Qdiv Qminus Qeq].
      repeat split; try discriminate. }
  unfold LinearQuantileRegression.regressor_fit at 1.
  cbn [LinearQuantileRegression.set_params LinearQuantileRegression.quantile
       LinearQuantileRegression.qr_alpha LinearQuantileRegression.qr_fit_intercept
       LinearQuantileRegression.qr_solver
       LinearQuantileRegression.qr_solver_options].
  destruct (quantile_fit (1 - LinearQuantileRegression.coverage self / 2) _ _ _ _ X y)
    as [cu|e]; cbn [rbind].
  - intros [= <- <-]. cbn -[Qdiv Qminus Qeq].
    repeat split; try discriminate.
  - intros [= <- <-]. cbn -[Qdiv Qminus Qeq].
    repeat split; try discriminate.
Qed.

Lemma two_columns (lower upper : vector) :
  Forall (fun row : list Q => length row = 2%nat)
    (map (fun lu : Q * Q => [fst lu; snd lu]) (combine lower upper)).
Proof.
  apply Forall_forall. intros row Hin. apply in_map_iff in Hin.
  destruct Hin as [lu [<- _]]. reflexivity.
Qed.

(** X14.  When [LinearQuantileRegression.predict] returns, both
    regressors had been fitted, their two prediction vectors have the
    same length, and the matrix returned has one row per prediction and
    two columns: row [i] is [lower_i, upper_i].  On an object whose
    lower regressor has not been fitted the call raises the library's
    NotFittedError, and two prediction vectors of different lengths make
    [np.vstack] raise ValueError. *)
Theorem linear_predict_rows (self : LinearQuantileRegression.t) (X : matrix) :
  (forall M, LinearQuantileRegression.predict self X = Ok M ->
     exists cl cu lo up,
       LinearQuantileRegression.coef_ (LinearQuantileRegression.lower self) = Some cl /\
       LinearQuantileRegression.coef_ (LinearQuantileRegression.upper self) = Some cu /\
       quantile_predict cl X = Ok lo /\ quantile_predict cu X = Ok up /\
       length lo = length up /\ length M = length lo /\
       Forall (fun row => length row = 2%nat) M /\
       forall i l u, nth_error lo i = Some l -> nth_error up i = Some u ->
                     nth_error M i = Some [l; u]) /\
  (LinearQuantileRegression.coef_ (LinearQuantileRegression.lower self) = None ->
   LinearQuantileRegression.predict self X = Raise (LibraryError "NotFittedError")) /\
  (forall cl cu lo up,
     LinearQuantileRegression.coef_ (LinearQuantileRegression.lower self) = Some cl ->
     LinearQuantileRegression.coef_ (LinearQuantileRegression.upper self) = Some cu ->
     quantile_predict cl X = Ok lo -> quantile_predict cu X = Ok up ->
     length lo <> length up ->
     LinearQuantileRegression.predict self X = Raise ValueError).
Proof.
  unfold LinearQuantileRegression.predict,
    LinearQuantileRegression.regressor_predict.
  split; [|split].
  - intros M.
    destruct (LinearQuantileRegression.coef_ (LinearQuantileRegression.lower self))
      as [cl|]; [|discriminate].
    destruct (quantile_predict cl X) as [lo|e] eqn:Hlo; [|discriminate].
    cbn [rbind].
    destruct (LinearQuantileRegression.coef_ (LinearQuantileRegression.upper self))
      as [cu|]; [|discriminate].
    destruct (quantile_predict cu X) as [up|e] eqn:Hup; [|discriminate].
    cbn [rbind]. intros HM. apply interval_rows in HM. destruct HM as [Hlen ->].
    destruct (rows_nth lo up Hlen) as [Hl Hnth].
    exists cl, cu, lo, up. repeat split; auto. apply two_columns.
  - intros ->. reflexivity.
  - intros cl cu lo up -> -> Hlo Hup Hlen. rewrite Hlo. cbn [rbind].
    rewrite Hup. cbn [rbind]. unfold np_vstack2.
    destruct (Nat.eqb_spec (length lo) (length up)); [contradiction|reflexivity].
Qed.

(** X15.  A [Valid_pred_sets] built on a [LinearQuantileRegression]
    object: with [isnc] set, or with neither [isnc] nor [islcp], the
    intervals that [fit] labels are those of the adapter's [predict]
    (the keyword [significance] is accepted and ignored); with [islcp]
    alone the first statement of [fit] raises AttributeError, the
    adapter having no [predict_pi].  On the matrix the adapter returns,
    the labelling loop does not fail when there are at most as many
    targets as rows, and [w_k] is 1 exactly when [y_k] lies between the
    two regressors' predictions for row [k]; with more targets than rows
    it raises IndexError. *)
Theorem adapter_intervals_are_labelled (s : Valid_pred_sets)
    (obj : LinearQuantileRegression.t) (X : matrix) :
  conf s = LinearQuantileRegression.as_conf obj ->
  (nc s = true \/ islcp s = false ->
   predict_intervals s X = LinearQuantileRegression.predict obj X) /\
  (nc s = false -> islcp s = true ->
   predict_intervals s X = Raise (AttributeError "predict_pi")) /\
  (forall M cl cu lo up (y : vector),
     LinearQuantileRegression.predict obj X = Ok M ->
     LinearQuantileRegression.coef_ (LinearQuantileRegression.lower obj) = Some cl ->
     LinearQuantileRegression.coef_ (LinearQuantileRegression.upper obj) = Some cu ->
     quantile_predict cl X = Ok lo -> quantile_predict cu X = Ok up ->
     ((length y <= length lo)%nat ->
      exists w, label y M = Ok w /\ length w = length y /\
        forall k y_k l u,
          nth_error y k = Some y_k ->
          nth_error lo k = Some l -> nth_error up k = Some u ->
          exists w_k, nth_error w k = Some w_k /\
            (l <= y_k /\ y_k <= u -> w_k = 1) /\
            (~ (l <= y_k /\ y_k <= u) -> w_k = 0)) /\
     ((length lo < length y)%nat -> label y M = Raise IndexError)).
Proof.
  intros Hconf. unfold predict_intervals. rewrite Hconf.
  cbn [LinearQuantileRegression.as_conf predict_significance predict_pi
       conf_predict rbind].
  split; [|split].
  - intros [-> | ->]; [reflexivity|]. destruct (nc s); reflexivity.
  - intros -> ->. reflexivity.
  - intros M cl cu lo up y HM Hcl Hcu Hlo Hup.
    unfold LinearQuantileRegression.predict,
      LinearQuantileRegression.regressor_predict in HM.
    rewrite Hcl, Hlo in HM. cbn [rbind] in HM.
    rewrite Hcu, Hup in HM. cbn [rbind] in HM.
    apply interval_rows in HM. destruct HM as [Hlen ->].
    destruct (rows_nth lo up Hlen) as [Hl Hnth].
    split; intros Hy.
    + destruct (label_from_spec
                  (map (fun lu : Q * Q => [fst lu; snd lu]) (combine lo up)))
        with (y := y) (i := 0%nat) as [w [Hw [Hlw [Hval _]]]].
      * eapply Forall_impl; [|apply two_columns]. cbv beta. intros a ->. lia.
      * rewrite Hl. simpl. exact Hy.
      * exists w. repeat split; auto.
        intros k y_k l u Hk Hlk Huk.
        apply (Hval k y_k l u Hk); unfold index2; cbn [Nat.add];
          rewrite (Hnth k l u Hlk Huk); reflexivity.
    + unfold label. apply label_from_short. rewrite Hl. lia.
Qed.

(** X16.  The constructor of [GradientBoostingQuantileRegression] builds
    its two regressors, unfitted, at the levels [coverage / 2] and
    [1 - coverage / 2] with the given loss, and fails exactly when the
    library rejects the keyword arguments.  [fit] changes neither the
    levels nor the loss nor [coverage]; when it returns both regressors
    are fitted, and when the lower fit raises the object is unchanged. *)
Theorem boosting_levels (c : Q) (loss : string) (kw : boost_kwargs) :
  (forall self,
     GradientBoostingQuantileRegression.__init__ c loss kw = Ok self ->
     boost_accepts kw = Ok tt /\
     GradientBoostingQuantileRegression.coverage self = c /\
     GradientBoostingQuantileRegression.gb_alpha
       (GradientBoostingQuantileRegression.lower self) = c / 2 /\
     GradientBoostingQuantileRegression.gb_alpha
       (GradientBoostingQuantileRegression.upper self) = 1 - c / 2 /\
     GradientBoostingQuantileRegression.gb_loss
       (GradientBoostingQuantileRegression.lower self) = loss /\
     GradientBoostingQuantileRegression.gb_loss
       (GradientBoostingQuantileRegression.upper self) = loss /\
     GradientBoostingQuantileRegression.estimators_
       (GradientBoostingQuantileRegression.lower self) = None /\
     GradientBoostingQuantileRegression.estimators_
       (GradientBoostingQuantileRegression.upper self) = None /\
     forall X y g r self' g',
       GradientBoostingQuantileRegression.fit X y (self, g) = (r, (self', g')) ->
       GradientBoostingQuantileRegression.coverage self' = c /\
       GradientBoostingQuantileRegression.gb_alpha
         (GradientBoostingQuantileRegression.lower self') = c / 2 /\
       GradientBoostingQuantileRegression.gb_alpha
         (GradientBoostingQuantileRegression.upper self') = 1 - c / 2 /\
       (r = Ok tt ->
        GradientBoostingQuantileRegression.estimators_
          (GradientBoostingQuantileRegression.lower self') <> None /\
        GradientBoostingQuantileRegression.estimators_
          (GradientBoostingQuantileRegression.upper self') <> None) /\
       (forall e, fst (boost_fit loss (c / 2) kw X y g) = Raise e ->
                  r = Raise e /\ self' = self)) /\
  (forall e, GradientBoostingQuantileRegression.__init__ c loss kw = Raise e <->
             boost_accepts kw = Raise e).
Proof.
  unfold GradientBoostingQuantileRegression.__init__,
    GradientBoostingQuantileRegression.new_GradientBoostingRegressor.
  cbn [fst snd].
  destruct (boost_accepts kw) as [[]|e0] eqn:Hacc; cbn [rbind].
  - split.
    + intros self [= <-].
      cbn -[Qdiv Qminus GradientBoostingQuantileRegression.fit].
      do 8 (split; [reflexivity|]).
      intros X y g r self' g'.
      unfold GradientBoostingQuantileRegression.fit,
        GradientBoostingQuantileRegression.regressor_fit, bind, ret.
      cbn -[Qdiv Qminus].
      destruct (boost_fit loss (c / 2) kw X y g) as [[tl|el] g1].
      * destruct (boost_fit loss (1 - c / 2) kw X y g1) as [[tu|eu] g2];
          intros [= <- <- <-]; cbn -[Qdiv Qminus];
          repeat split; try discriminate.
      * intros [= <- <- <-]; cbn -[Qdiv Qminus];
          repeat split; try discriminate; congruence.
    + intros e. split; discriminate.
  - split.
    + intros self; discriminate.
    + intros e. split; congruence.
Qed.

End Adapters.

(** * The properties on concrete analyses *)

#[local] Existing Instance Sim.libraries.

Lemma label_is_coverage_indicator_witness :
  (length Sim.y_calib <= length intervals)%nat /\
  Forall (fun row => (1 < length row)%nat) intervals /\
  exists w, label Sim.y_calib intervals = Ok w /\ length w = 10%nat /\
            Forall (fun w_i => w_i = 0 \/ w_i = 1) w.
Proof.
  assert (H1 : (length Sim.y_calib <= length intervals)%nat) by (simpl; lia).
  assert (H2 : Forall (fun row => (1 < length row)%nat) intervals)
    by (repeat constructor).
  split; [exact H1|]. split; [exact H2|].
  destruct (label_is_coverage_indicator Sim.y_calib intervals H1 H2)
    as [w [Hw [Hl [_ Hall]]]].
  exists w. split; [exact Hw|]. split; [exact Hl | exact Hall].
Defined.

(** Three feature rows and two targets: labelling succeeds, and the call
    only fails later, with the [ValueError] of the splitter. *)
Lemma mismatch_not_caught_at_labeling :
  length [[0]; [1]; [2]] <> length [0; 1] /\
  label [0; 1] [[-1; 1]; [0; 2]; [1; 3]] = Ok [1; 1] /\
  fst (fit [[0]; [1]; [2]] [0; 1] 1250 650 (1 # 5) tt (Sim.start "CART" true))
  = Raise ValueError /\
  exn_name ValueError <> "ShapeMismatch"%string.
Proof.
  split; [simpl; lia|]. split; [reflexivity|]. split; [reflexivity|].
  discriminate.
Qed.

Lemma fit_length_mismatch_witness :
  predict_intervals (self (Sim.start "CART" true)) [[0]; [1]]
  = Ok [[-1; 1]; [0; 2]] /\
  np_random_seed 1250 (np_random (Sim.start "CART" true)) = (Ok tt, 1250%Z) /\
  fit [[0]; [1]] [0; 1; 2] 1250 650 (1 # 5) tt (Sim.start "CART" true)
  = (Raise IndexError,
     {| self := self (Sim.start "CART" true); np_random := 1250%Z |}).
Proof.
  assert (H1 : predict_intervals (self (Sim.start "CART" true)) [[0]; [1]]
               = Ok [[-1; 1]; [0; 2]]) by reflexivity.
  assert (H2 : np_random_seed 1250 (np_random (Sim.start "CART" true))
               = (Ok tt, 1250%Z)) by reflexivity.
  split; [exact H1|]. split; [exact H2|].
  apply (proj1 (fit_length_mismatch (Sim.start "CART" true) [[0]; [1]] [0; 1; 2]
                  1250 650 (1 # 5) tt [[-1; 1]; [0; 2]] 1250%Z H1 H2)).
  simpl. lia.
Defined.

(** An unknown family tag: the failure is the [AttributeError] of
    [set_params], not a dedicated error. *)
Lemma unsupported_tag_error_not_explicit :
  fst (fit Sim.X_calib Sim.y_calib 1250 650 (1 # 5) tt (Sim.start "KNN" true))
  = Raise (AttributeError "set_params") /\
  exn_name (AttributeError "set_params") <> "UnsupportedEvaluator"%string.
Proof. split; [reflexivity | discriminate]. Qed.

Lemma unsupported_tag_fails_witness :
  coverage_evaluator (self (Sim.start "KNN" true)) = Tag "KNN" /\
  unsupported "KNN" /\
  model (self (Sim.start "KNN" true)) = None /\
  is_ok (fst (fit Sim.X_calib Sim.y_calib 1250 650 (1 # 5) tt
                (Sim.start "KNN" true))) = false /\
  predict (self (Sim.fitted_world "KNN" true)) Sim.X_calib
  = Raise (AttributeError "model").
Proof.
  assert (H1 : coverage_evaluator (self (Sim.start "KNN" true)) = Tag "KNN")
    by reflexivity.
  assert (H2 : unsupported "KNN") by (repeat split; discriminate).
  assert (H3 : model (self (Sim.start "KNN" true)) = None) by reflexivity.
  split; [exact H1|]. split; [exact H2|]. split; [exact H3|].
  destruct (proj2 (unsupported_tag_fails (Sim.start "KNN" true) "KNN"
                     Sim.X_calib Sim.y_calib 1250 650 (1 # 5) tt H1 H2 H3)
              _ _ (surjective_pairing _)) as [Hr [_ Hp]].
  split; [exact Hr | exact (Hp Sim.X_calib)].
Defined.


Lemma probability_table_shape_witness :
  [[1]; [1]] <> [] /\
  (Forall (fun row : list Q => length row = 1%nat) [[1]; [1]] \/
   Forall (fun row : list Q => length row = 2%nat) [[1]; [1]]) /\
  predict single_class [[8]; [9]] = Ok (Some (Arr2 [[1]; [1]])).
Proof.
  assert (H1 : [[1]; [1]] <> ([] : matrix)) by discriminate.
  assert (H2 : Forall (fun row : list Q => length row = 1%nat) [[1]; [1]] \/
               Forall (fun row : list Q => length row = 2%nat) [[1]; [1]])
    by (left; repeat constructor).
  split; [exact H1|]. split; [exact H2|].
  destruct (probability_table_shape [[1]; [1]] H1 H2) as [_ [_ [Hp _]]].
  destruct (model single_class) as [m|] eqn:Hm; [|discriminate].
  apply (Hp single_class m [[8]; [9]] Hm).
  - vm_compute in Hm. injection Hm as <-. reflexivity.
  - vm_compute in Hm. injection Hm as <-. reflexivity.
Defined.

Lemma bootstrap_resample_size_witness :
  exists m X w Xt,
    model cart_fitted = Some m /\
    X_train cart_fitted = Some X /\
    w_train cart_fitted = Some w /\
    X_test cart_fitted = Some Xt /\
    length w = length X /\
    length X = 8%nat /\
    (exists idx g1 new_X_train new_w_train,
       @np_random_randint Sim.libraries (Z.of_nat (length X)) 2 1250%Z
       = (Ok idx, g1) /\
       take X idx = Ok new_X_train /\
       take w idx = Ok new_w_train /\
       length new_X_train = 2%nat /\
       length new_w_train = 2%nat) /\
    (exists res g' r g1 t_vec,
       bootstrap_ci cart_fitted 2 (1 # 20) 1250 false 0%Z = (Ok res, g') /\
       predict cart_fitted Xt = Ok (Some r) /\
       t_obs res = mean_abs_dev r (alpha cart_fitted) /\
       length t_vec = 2%nat /\
       chain (bootstrap_repetition cart_fitted m X w Xt 2) g1 t_vec g').
Proof.
  destruct (model cart_fitted) as [m|] eqn:Hm; [|discriminate].
  destruct (X_train cart_fitted) as [X|] eqn:HX; [|discriminate].
  destruct (w_train cart_fitted) as [w|] eqn:Hw; [|discriminate].
  destruct (X_test cart_fitted) as [Xt|] eqn:HXt; [|discriminate].
  assert (Hlen : length w = length X).
  { vm_compute in HX, Hw. injection HX as <-. injection Hw as <-. reflexivity. }
  assert (H8 : length X = 8%nat).
  { vm_compute in HX. injection HX as <-. reflexivity. }
  exists m, X, w, Xt. do 6 (split; [reflexivity || assumption|]).
  destruct (bootstrap_resample_size cart_fitted 2 m X w Xt Hm HX Hw HXt Hlen)
    as [Hbody Hci].
  split.
  - destruct (@np_random_randint Sim.libraries (Z.of_nat (length X)) 2 1250%Z)
      as [[idx|e] g1] eqn:Hd.
    + destruct (Hbody 1250%Z idx g1 Hd)
        as [nX [nw [H1 [H2 [_ [H3 [H4 _]]]]]]].
      exists idx, g1, nX, nw. repeat split; assumption.
    + exfalso. rewrite H8 in Hd. vm_compute in Hd. discriminate.
  - destruct (bootstrap_ci cart_fitted 2 (1 # 20) 1250 false 0%Z)
      as [[res|e] g'] eqn:Hrun.
    + destruct (Hci (1 # 20) 1250%Z 0%Z res g' Hrun)
        as [r [g1 [t_vec [Hp [Ht [_ [Hl [Hch _]]]]]]]].
      exists res, g', r, g1, t_vec. repeat split; assumption.
    + exfalso. apply (f_equal (fun p => is_ok (fst p))) in Hrun.
      vm_compute in Hrun. discriminate.
Defined.

(** The default analysis with three repetitions: the comparison with the
    pair raises. *)
Example monte_carlo_test_three_repetitions :
  fst (monte_carlo_test cart_fitted 3 1250 false 0%Z) = Raise ValueError /\
  fst (monte_carlo_test cart_fitted 3 1250 true 0%Z) = Raise ValueError.
Proof. split; reflexivity. Qed.

Lemma monte_carlo_test_compares_with_pair_witness :
  3%nat <> 1%nat /\ 3%nat <> 2%nat /\
  forall par, is_ok (fst (monte_carlo_test cart_fitted 3 1250 par 0%Z)) = false.
Proof.
  assert (H1 : 3%nat <> 1%nat) by lia.
  assert (H2 : 3%nat <> 2%nat) by lia.
  split; [exact H1|]. split; [exact H2|].
  exact (proj1 (monte_carlo_test_compares_with_pair cart_fitted 3 1250 0%Z H1 H2)).
Defined.

(** The same analysis, seed and number of repetitions: the sequential
    bootstrap returns, the parallel one raises. *)
Example bootstrap_ci_modes_differ :
  is_ok (fst (bootstrap_ci cart_fitted 2 (1 # 20) 1250 false 0%Z)) = true /\
  fst (bootstrap_ci cart_fitted 2 (1 # 20) 1250 true 0%Z) = Raise TypeError.
Proof. split; vm_compute; reflexivity. Qed.

Lemma bootstrap_ci_parallel_arity_witness :
  (1 <= 2)%nat /\
  is_ok (fst (bootstrap_ci cart_fitted 2 (1 # 20) 1250 true 0%Z)) = false.
Proof.
  assert (H : (1 <= 2)%nat) by lia.
  split; [exact H|].
  exact (proj1 (bootstrap_ci_parallel_arity cart_fitted 2 (1 # 20) 1250 0%Z H)).
Defined.

(** The default analysis with three repetitions, at any level: the
    observed statistic and the three bootstrap statistics. *)
Lemma cart_bootstrap_three (sig_b : Q) (res : BootstrapResult) (g' : rng) :
  bootstrap_ci cart_fitted 3 sig_b 1250 false 0%Z = (Ok res, g') ->
  t_obs res = Some (480 # 3200) /\
  bootstrap_t_vec cart_fitted 3 false 1250%Z
  = (Ok [Some (20 # 200); Some (20 # 200); Some (1020 # 1800)], g').
Proof.
  intros H.
  destruct (bootstrap_ci_inv cart_fitted 3 sig_b 1250 false 0%Z g' res H)
    as [Xt [r [g1 [t_vec [epb [HXt [Hp [Hobs [Hseed [Ht _]]]]]]]]]].
  vm_compute in HXt. injection HXt as <-.
  vm_compute in Hp. injection Hp as <-.
  vm_compute in Hseed. injection Hseed as <-.
  split.
  - rewrite Hobs. vm_compute. reflexivity.
  - rewrite Ht. f_equal. vm_compute in Ht. injection Ht as <- _. reflexivity.
Qed.

Lemma se_interval_symmetric_witness :
  exists res g' lower upper,
    bootstrap_ci cart_fitted 3 (1 # 20) 1250 false 0%Z = (Ok res, g') /\
    t_obs res = Some (480 # 3200) /\
    SE_confidence_interval res = (Some lower, Some upper) /\
    (lower <= Q2R (480 # 3200) <= upper)%R.
Proof.
  destruct (bootstrap_ci cart_fitted 3 (1 # 20) 1250 false 0%Z)
    as [[res|e] g'] eqn:H.
  2:{ exfalso. apply (f_equal (fun p => is_ok (fst p))) in H.
      vm_compute in H. discriminate. }
  destruct (cart_bootstrap_three (1 # 20) res g' H) as [Hobs Hvec].
  destruct (se_interval_symmetric cart_fitted 3 (1 # 20) 1250 false 0%Z g' res H)
    as [Xt [r [g1 [t_vec [_ [_ [_ [Hseed [Ht [_ Hint]]]]]]]]]].
  assert (Hg1 : g1 = 1250%Z) by (vm_compute in Hseed; now injection Hseed).
  subst g1. rewrite Hvec in Ht. injection Ht as <-.
  destruct (Hint (480 # 3200) [20 # 200; 20 # 200; 1020 # 1800]
              (Q2R (4 * (1 - (1 # 20) / 2 - (1 # 2))))
              Hobs eq_refl ltac:(lia) eq_refl)
    as [epb [lower [upper [_ [_ [Hse [_ [_ [Hord _]]]]]]]]].
  exists res, g', lower, upper. split; [reflexivity|]. split; [exact Hobs|].
  split; [exact Hse|]. apply Hord. discriminate.
Defined.

Section Rounding.

Import PrimFloat.

(** A level [sig_b = 3/2] is accepted: the quantile at [1/4] is negative
    and the SE interval comes out with its lower bound above the upper
    one.  And on binary64 values the midpoint of the two bounds need not
    be [t_obs]: for [t_obs = 0.15], [z = 1.959963984540054] (the quantile
    at 0.975) and [epb = 0.1] it is 0.15000000000000002. *)
Lemma se_interval_order_and_midpoint :
  (exists res g' lower upper,
     bootstrap_ci cart_fitted 3 (3 # 2) 1250 false 0%Z = (Ok res, g') /\
     SE_confidence_interval res = (Some lower, Some upper) /\
     (upper < lower)%R) /\
  PrimFloat.eqb
    (Binary64.midpoint
       (Binary64.se_bounds 0x1.3333333333333p-3%float
          0x1.f5c0331eeff84p+0%float 0x1.999999999999ap-4%float))
    0x1.3333333333333p-3%float = false.
Proof.
  split; [|reflexivity].
  destruct (bootstrap_ci cart_fitted 3 (3 # 2) 1250 false 0%Z)
    as [[res|e] g'] eqn:H.
  2:{ exfalso. apply (f_equal (fun p => is_ok (fst p))) in H.
      vm_compute in H. discriminate. }
  destruct (cart_bootstrap_three (3 # 2) res g' H) as [Hobs Hvec].
  pose proof (bootstrap_ci_se_bounds cart_fitted 3 (3 # 2) 1250 false 0%Z g'
                res 1250%Z [Some (20 # 200); Some (20 # 200); Some (1020 # 1800)]
                (480 # 3200) [20 # 200; 20 # 200; 1020 # 1800]
                (Q2R (4 * (1 - (3 # 2) / 2 - (1 # 2))))
                H eq_refl Hvec Hobs eq_refl ltac:(lia) eq_refl) as Hse.
  exists res, g'. eexists. eexists. split; [reflexivity|]. split; [exact Hse|].
  assert (Hz : (Q2R (4 * (1 - (3 # 2) / 2 - (1 # 2))) < 0)%R).
  { replace 0%R with (Q2R 0) by (unfold Q2R; simpl; lra).
    apply Qlt_Rlt. reflexivity. }
  assert (He : (0 < R_sqrt.sqrt
                      (Q2R (sample_variance
                              [20 # 200; 20 # 200; 1020 # 1800])))%R).
  { apply sqrt_lt_R0. replace 0%R with (Q2R 0) by (unfold Q2R; simpl; lra).
    apply Qlt_Rlt. vm_compute. reflexivity. }
  nra.
Qed.

End Rounding.

(** The forest fitted without a held-out fold: the statistic is computed
    on the ten training rows, and both procedures stop on [X_test]; with
    no repetition at all [monte_carlo_test] has no read of it and stops
    on the comparison. *)
Example no_split_mode_runs :
  (exists t_mean t_max,
     compute_dif forest_no_split = Ok (Some t_mean, t_max) /\
     t_mean == 1 # 5 /\ t_max == 1 # 5) /\
  fst (bootstrap_ci forest_no_split 1000 (1 # 20) 1250 false 0%Z)
  = Raise (AttributeError "X_test") /\
  fst (monte_carlo_test forest_no_split 1000 1250 false 0%Z)
  = Raise (AttributeError "X_test") /\
  fst (monte_carlo_test forest_no_split 1000 1250 true 0%Z)
  = Raise (AttributeError "X_test") /\
  fst (monte_carlo_test forest_no_split 0 1250 false 0%Z) = Raise ValueError.
Proof.
  split; [|repeat split; vm_compute; reflexivity].
  eexists. eexists. split; [vm_compute; reflexivity|].
  split; reflexivity.
Qed.


(** ** The further properties on concrete analyses *)

Lemma pair_of_fst {A B : Type} (p : A * B) (a : A) :
  fst p = a -> p = (a, snd p).
Proof. intros <-. apply surjective_pairing. Qed.

Lemma compute_dif_max_attained_witness :
  compute_dif cart_fitted = Ok (Some (480 # 3200), 6 # 40) /\
  exists X a,
    X_test cart_fitted = Some X /\
    predict cart_fitted X = Ok (Some a) /\
    exists p, In p (entries a) /\ 6 # 40 = Qabs (p - (1 - alpha cart_fitted)).
Proof.
  assert (H : compute_dif cart_fitted = Ok (Some (480 # 3200), 6 # 40))
    by (vm_compute; reflexivity).
  split; [exact H|].
  destruct (compute_dif_max_attained cart_fitted (Some (480 # 3200)) (6 # 40) H)
    as [X [a [HX [Hp [_ [_ [Hin _]]]]]]].
  exists X, a. split; [exact HX|]. split; [exact Hp | exact Hin].
Defined.

Lemma compute_dif_zero_iff_null_witness :
  (if split_train cart_fitted then X_test cart_fitted else X_train cart_fitted)
  = Some [[8]; [9]] /\
  predict cart_fitted [[8]; [9]] = Ok (Some (Arr1 [3 # 4; 3 # 4])) /\
  entries (Arr1 [3 # 4; 3 # 4]) <> [] /\
  exists t m,
    compute_dif cart_fitted = Ok (Some t, m) /\
    (t == 0 <-> Forall (fun p => p == 1 - alpha cart_fitted) [3 # 4; 3 # 4]) /\
    (m == 0 <-> Forall (fun p => p == 1 - alpha cart_fitted) [3 # 4; 3 # 4]).
Proof.
  assert (H1 : (if split_train cart_fitted then X_test cart_fitted
                else X_train cart_fitted) = Some [[8]; [9]])
    by (vm_compute; reflexivity).
  assert (H2 : predict cart_fitted [[8]; [9]] = Ok (Some (Arr1 [3 # 4; 3 # 4])))
    by (vm_compute; reflexivity).
  assert (H3 : entries (Arr1 [3 # 4; 3 # 4]) <> []) by discriminate.
  split; [exact H1|]. split; [exact H2|]. split; [exact H3|].
  exact (compute_dif_zero_iff_null cart_fitted [[8]; [9]]
           (Arr1 [3 # 4; 3 # 4]) H1 H2 H3).
Defined.

Lemma compute_dif_unit_interval_witness :
  Forall (fun p => 0 <= p /\ p <= 1) (entries (Arr1 [3 # 4; 3 # 4])) /\
  0 <= alpha cart_fitted /\ alpha cart_fitted <= 1 /\
  compute_dif cart_fitted = Ok (Some (480 # 3200), 6 # 40) /\
  0 <= 6 # 40 /\ 6 # 40 <= 1 /\
  exists t, Some (480 # 3200) = Some t /\ 0 <= t /\ t <= 1.
Proof.
  assert (H1 : (if split_train cart_fitted then X_test cart_fitted
                else X_train cart_fitted) = Some [[8]; [9]])
    by (vm_compute; reflexivity).
  assert (H2 : predict cart_fitted [[8]; [9]] = Ok (Some (Arr1 [3 # 4; 3 # 4])))
    by (vm_compute; reflexivity).
  assert (H3 : Forall (fun p => 0 <= p /\ p <= 1) (entries (Arr1 [3 # 4; 3 # 4])))
    by (repeat constructor; discriminate).
  assert (H4 : 0 <= alpha cart_fitted) by (vm_compute; discriminate).
  assert (H5 : alpha cart_fitted <= 1) by (vm_compute; discriminate).
  assert (H6 : compute_dif cart_fitted = Ok (Some (480 # 3200), 6 # 40))
    by (vm_compute; reflexivity).
  split; [exact H3|]. split; [exact H4|]. split; [exact H5|]. split; [exact H6|].
  exact (compute_dif_unit_interval cart_fitted [[8]; [9]] (Arr1 [3 # 4; 3 # 4])
           (Some (480 # 3200)) (6 # 40) H1 H2 H3 H4 H5 H6).
Defined.

Lemma fit_stores_folds_and_model_witness :
  fit Sim.X_calib Sim.y_calib 1250 650 (1 # 5) tt (Sim.start "CART" true)
  = (Ok tt, Sim.fitted_world "CART" true) /\
  exists w m,
    label Sim.y_calib intervals = Ok w /\
    model cart_fitted = Some m /\
    exists Xtr Xte wtr wte,
      X_train cart_fitted = Some Xtr /\ X_test cart_fitted = Some Xte /\
      w_train cart_fitted = Some wtr /\ w_test cart_fitted = Some wte.
Proof.
  assert (H : fit Sim.X_calib Sim.y_calib 1250 650 (1 # 5) tt
                (Sim.start "CART" true)
              = (Ok tt, Sim.fitted_world "CART" true))
    by (apply pair_of_fst; vm_compute; reflexivity).
  split; [exact H|].
  destruct (fit_stores_folds_and_model (Sim.start "CART" true) Sim.X_calib
              Sim.y_calib 1250 650 (1 # 5) tt (Sim.fitted_world "CART" true) H)
    as [preds [w [m [Hp [Hw [Hm [_ Hs]]]]]]].
  exists w, m.
  assert (Hpreds : preds = intervals).
  { vm_compute in Hp. injection Hp as <-. reflexivity. }
  rewrite <- Hpreds. split; [exact Hw|]. split; [exact Hm|].
  destruct (Hs eq_refl) as [g [g' [Xtr [Xte [wtr [wte [_ [H1 [H2 [H3 H4]]]]]]]]]].
  exists Xtr, Xte, wtr, wte. repeat split; assumption.
Defined.

Lemma custom_estimator_needs_sklearn_type_witness :
  coverage_evaluator (self custom_start) = Estimator boosted /\
  fit Sim.X_calib Sim.y_calib 1250 650 (1 # 5) tt custom_start
  = (Ok tt, custom_fitted_world) /\
  (forall X, predict (self custom_fitted_world) X = Ok None) /\
  compute_dif (self custom_fitted_world) = Raise TypeError.
Proof.
  assert (H1 : coverage_evaluator (self custom_start) = Estimator boosted)
    by reflexivity.
  assert (H2 : fit Sim.X_calib Sim.y_calib 1250 650 (1 # 5) tt custom_start
               = (Ok tt, custom_fitted_world))
    by (apply pair_of_fst; vm_compute; reflexivity).
  split; [exact H1|]. split; [exact H2|].
  destruct (custom_estimator_needs_sklearn_type custom_start boosted
              Sim.X_calib Sim.y_calib 1250 650 (1 # 5) tt custom_fitted_world
              H1 H2) as [m [Hm [_ Hrest]]].
  assert (Hty : contains "sklearn" (type_str m) = false).
  { vm_compute in Hm. injection Hm as <-. reflexivity. }
  destruct (Hrest Hty) as [Hp [Hc _]]. split; [exact Hp | exact Hc].
Defined.

Lemma retrain_evaluates_on_X_test_witness :
  exists m,
    model cart_fitted = Some m /\
    X_test cart_fitted = Some [[8]; [9]] /\
    sklearn_branch (coverage_evaluator cart_fitted) m = true /\
    retrain cart_fitted [[0]; [1]] [1; 0] [[5]; [6]; [7]] 0%Z
    = retrain_par (coverage_evaluator cart_fitted) m [[0]; [1]] [1; 0]
        [[8]; [9]] 0%Z.
Proof.
  destruct (model cart_fitted) as [m|] eqn:Hm; [|discriminate].
  exists m.
  assert (H2 : X_test cart_fitted = Some [[8]; [9]]) by (vm_compute; reflexivity).
  assert (H3 : sklearn_branch (coverage_evaluator cart_fitted) m = true).
  { vm_compute in Hm. injection Hm as <-. reflexivity. }
  split; [reflexivity|]. split; [exact H2|]. split; [exact H3|].
  exact (retrain_evaluates_on_X_test cart_fitted m [[0]; [1]] [1; 0] [[8]; [9]]
           0%Z Hm H2 (or_introl H3) [[5]; [6]; [7]]).
Defined.

Lemma monte_carlo_test_when_it_returns_witness :
  exists res g',
    monte_carlo_test cart_fitted 2 1250 false 0%Z = (Ok res, g') /\
    compute_dif cart_fitted = Ok (observed_statistic res) /\
    exists p, p_value res = Some p /\ (p == 0 \/ p == 1 # 2 \/ p == 1).
Proof.
  destruct (monte_carlo_test cart_fitted 2 1250 false 0%Z) as [[res|e] g']
    eqn:H; [|vm_compute in H; discriminate].
  exists res, g'. split; [reflexivity|].
  exact (proj2 (monte_carlo_test_when_it_returns cart_fitted 2 1250 false 0%Z
                  g' res H)).
Defined.

Lemma parallel_needs_two_cores_witness :
  (@cpu_count single_core <= 1)%nat /\
  @monte_carlo_test single_core cart_single_core 2 1250 true 0%Z
  = (Raise ValueError, 1250%Z) /\
  @bootstrap_ci single_core cart_single_core 2 (1 # 20) 1250 true 0%Z
  = (Raise ValueError, 1250%Z).
Proof.
  assert (H : (@cpu_count single_core <= 1)%nat) by (simpl; lia).
  split; [exact H|].
  destruct (@parallel_needs_two_cores single_core cart_single_core 2 (1 # 20)
              1250 0%Z H) as [_ [_ [Hm Hb]]].
  split.
  - apply (Hm (Some (480 # 3200), 6 # 40) 1250%Z); vm_compute; reflexivity.
  - apply (Hb [[8]; [9]] (Arr1 [3 # 4; 3 # 4]) 1250%Z); vm_compute; reflexivity.
Defined.

Lemma reseeding_makes_reproducible_witness :
  (forall g g' : rng, np_random_seed 1250 g = np_random_seed 1250 g') /\
  fst (monte_carlo_test cart_fitted 2 1250 false 0%Z)
  = fst (monte_carlo_test cart_fitted 2 1250 false 77%Z) /\
  fst (bootstrap_ci cart_fitted 2 (1 # 20) 1250 false 0%Z)
  = fst (bootstrap_ci cart_fitted 2 (1 # 20) 1250 false 77%Z).
Proof.
  assert (H : forall g g' : rng, np_random_seed 1250 g = np_random_seed 1250 g')
    by (intros g g'; reflexivity).
  split; [exact H|].
  destruct (reseeding_makes_reproducible 1250 H) as [Hm Hb].
  split.
  - exact (Hm cart_fitted 2%nat false 0%Z 77%Z).
  - exact (Hb cart_fitted 2%nat (1 # 20) false 0%Z 77%Z).
Defined.

Lemma linear_fit_sets_levels_witness :
  LinearQuantileRegression.fit [[0]; [1]; [2]] [0; 1; 2] SimQ.linear
  = (Ok tt, SimQ.linear_fitted) /\
  LinearQuantileRegression.quantile
    (LinearQuantileRegression.lower SimQ.linear_fitted)
  = LinearQuantileRegression.coverage SimQ.linear / 2 /\
  LinearQuantileRegression.quantile
    (LinearQuantileRegression.upper SimQ.linear_fitted)
  = 1 - LinearQuantileRegression.coverage SimQ.linear / 2.
Proof.
  assert (H : LinearQuantileRegression.fit [[0]; [1]; [2]] [0; 1; 2] SimQ.linear
              = (Ok tt, SimQ.linear_fitted)) by (vm_compute; reflexivity).
  split; [exact H|].
  destruct (linear_fit_sets_levels SimQ.linear SimQ.linear_fitted
              [[0]; [1]; [2]] [0; 1; 2] (Ok tt) H)
    as [_ [_ [Hl [_ [_ [_ [_ Hu]]]]]]].
  split; [exact Hl | exact (proj1 (Hu eq_refl))].
Defined.

Lemma adapter_intervals_are_labelled_witness :
  conf quantile_analysis = LinearQuantileRegression.as_conf SimQ.linear_fitted /\
  predict_intervals quantile_analysis [[0]; [1]; [2]]
  = LinearQuantileRegression.predict SimQ.linear_fitted [[0]; [1]; [2]] /\
  exists M w,
    LinearQuantileRegression.predict SimQ.linear_fitted [[0]; [1]; [2]] = Ok M /\
    label [0; 3; 5] M = Ok w /\ length w = 3%nat.
Proof.
  assert (H : conf quantile_analysis
              = LinearQuantileRegression.as_conf SimQ.linear_fitted)
    by reflexivity.
  split; [exact H|].
  destruct (adapter_intervals_are_labelled quantile_analysis SimQ.linear_fitted
              [[0]; [1]; [2]] H) as [Hp [_ Hl]].
  split; [apply Hp; right; reflexivity|].
  destruct (LinearQuantileRegression.predict SimQ.linear_fitted [[0]; [1]; [2]])
    as [M|e] eqn:HM; [|vm_compute in HM; discriminate].
  destruct (Hl M (1 # 40) (39 # 40)
              (map (fun row => Qred (nth 0 row 0 + 4 * ((1 # 40) - (1 # 2))))
                 [[0]; [1]; [2]])
              (map (fun row => Qred (nth 0 row 0 + 4 * ((39 # 40) - (1 # 2))))
                 [[0]; [1]; [2]])
              [0; 3; 5] eq_refl) as [Hok _];
    try (vm_compute; reflexivity).
  destruct (Hok ltac:(simpl; lia)) as [w [Hw [Hlen _]]].
  exists M, w. split; [reflexivity|]. split; [exact Hw | exact Hlen].
Defined.
